(** * KubeSentinel: runtime event pipeline and forensic vault

    A shallow embedding of the Go packages [runtime] (monitor, event
    processor, feature extractor) and [forensics] (vault, retention
    policy), and of the built-in checks of [static], followed by the
    properties of the specification that were checked against them and by
    further properties read off the code.

    Conventions of the embedding.
    - Go [int] and [int64] are 64-bit two's complement integers: a [Z]
      together with [wrap64] at every arithmetic operation.
    - Go [float64] is Rocq's primitive binary64 [float]; literals such as
      [0.95] denote the same nearest binary64 value in both languages.
    - Go [string] is [string] (a sequence of bytes).
    - A [time.Time] is the instant it denotes, in nanoseconds since the
      Unix epoch; the zero [time.Time] is January 1 of year 1.
    - Go [error] is [option string]: [None] is [nil], [Some msg] is a
      non-nil error whose [Error()] text is [msg].
    - Standard-library packages the code calls into ([time] formatting,
      [encoding/json], [path/filepath], [io/ioutil]) are interfaces
      ([Class]es); the code is embedded over any implementation.
    - What the code prints is kept as a list of structured lines, one
      constructor per [fmt.Printf]/[fmt.Println] call site. *)

From Stdlib Require Import Floats ZArith.
From stdpp Require Import gmap strings list pretty.

#[local] Set Warnings "-inexact-float,-register-all".
#[local] Open Scope Z_scope.

(** ** Shared Go vocabulary *)

Definition wrap64 (z : Z) : Z := (z + 2 ^ 63) mod 2 ^ 64 - 2 ^ 63.

Definition max_int64 : Z := 2 ^ 63 - 1.

(** [x + y] on [int]/[int64]. *)
Definition int_add (x y : Z) : Z := wrap64 (x + y).

(** [atomic.AddInt64(&x, delta)]: the new value. *)
Definition atomic_AddInt64 (x delta : Z) : Z := wrap64 (x + delta).

Definition Time : Type := Z.

(** Unix time of January 1, year 1, 00:00:00 UTC, in nanoseconds. *)
Definition zero_Time : Time := -62135596800 * 1000000000.

Definition Time_IsZero (t : Time) : bool := t =? zero_Time.
Definition Time_After (t u : Time) : bool := u <? t.
Definition Time_Before (t u : Time) : bool := t <? u.
Definition Time_UnixNano (t : Time) : Z := wrap64 t.

Definition error : Type := option string.

Definition is_error (e : error) : bool :=
  match e with None => false | Some _ => true end.

(** A decoded JSON value held in an [interface{}]. *)
Inductive value : Type :=
  | VNull
  | VBool (b : bool)
  | VNumber (f : float)
  | VString (s : string)
  | VArray (l : list value)
  | VObject (l : list (string * value)).

(** [v, ok := m[key].(string)] on a (possibly nil) [map[string]interface{}]:
    [Some s] when [ok]. *)
Definition lookup_string (m : gmap string value) (key : string) : option string :=
  match m !! key with
  | Some (VString s) => Some s
  | _ => None
  end.

(** [min] and [contains], declared in both [runtime] files and in [static]. *)
Definition min (a b : Z) : Z := if a <? b then a else b.

Definition len (s : string) : Z := Z.of_nat (String.length s).

(** [s[0:n]] for [0 <= n <= len(s)]. *)
Definition slice_to (s : string) (n : Z) : string := String.substring 0 (Z.to_nat n) s.

Fixpoint contains (s substr : string) : bool :=
  (len substr <=? len s) &&
  (String.eqb s substr ||
   ((0 <? len s) && (0 <? len substr) &&
    (String.eqb (slice_to s (min (len s) (len substr)))
                (slice_to substr (min (len s) (len substr))) ||
     match s with
     | EmptyString => false
     | String _ s1 => contains s1 substr
     end))).

(** ** package runtime *)

Module Runtime.

Record ContainerInfo := {
  CI_ID : string;
  CI_Name : string;
  CI_Image : string;
  CI_Namespace : string;
  CI_PodName : string;
}.

Record SecurityEvent := {
  Timestamp : Time;
  Priority : string;
  Rule : string;
  Output : string;
  Source : string;
  Tags : list string;
  Fields : option (gmap string value);
  Container : ContainerInfo;
}.

Record ProcessorMetrics := {
  TotalEvents : Z;
  ProcessedEvents : Z;
  AnomaliesDetected : Z;
  ErrorCount : Z;
}.

Record BehavioralFeatures := {
  ProcessName : string;
  ProcessFrequency : Z;
  SyscallCount : gmap string Z;
  FileAccessCount : Z;
  NetworkConnCount : Z;
  SensitiveFiles : list string;
  CommandLine : string;
  ParentProcess : string;
  UserID : string;
  TimeWindow : string;
  ContainerID : string;
  Namespace : string;
}.

Record ProcessedEvent := {
  Original : SecurityEvent;
  Features : BehavioralFeatures;
  PE_Timestamp : Time;
  RiskScore : float;
  Anomaly : bool;
}.

(** Lines written to standard output, by call site. *)
Inductive line : Type :=
  | WorkerStarted (id : Z)
  | WorkerStopping (id : Z)
  | WorkerChannelClosed (id : Z)
  | WorkerError (id : Z) (err : string)
  | AnomalyDetected (risk : float) (rule container : string)
  | AllProcessorsStopped
  | StartingMonitor
  | StoppingMonitor
  | ConnectedToFalco
  | ParseWarning (err : string)
  | ChannelFullWarning
  | ConsumeError (err : string)
  | MetricsLine (total processed anomalies : Z).

(** What [runtime] needs from [time] and [encoding/json]. *)
Class Lib := {
  Time_Format : Time -> string -> string;
  json_Unmarshal : string -> SecurityEvent * error;
}.

(** The mutable state behind an [*EventProcessor]: the extractor's
    frequency table, the metrics, and what has been printed. *)
Record EventProcessor := {
  Workers : Z;
  processFrequency : gmap string Z;
  Metrics : ProcessorMetrics;
  stdout : list line;
}.

Definition NewEventProcessor (workers : Z) : EventProcessor :=
  {| Workers := workers;
     processFrequency := ∅;
     Metrics := {| TotalEvents := 0; ProcessedEvents := 0;
                   AnomaliesDetected := 0; ErrorCount := 0 |};
     stdout := [] |}.

Definition set_Metrics (m : ProcessorMetrics) (ep : EventProcessor) : EventProcessor :=
  {| Workers := Workers ep; processFrequency := processFrequency ep;
     Metrics := m; stdout := stdout ep |}.

Definition set_processFrequency (t : gmap string Z) (ep : EventProcessor) : EventProcessor :=
  {| Workers := Workers ep; processFrequency := t;
     Metrics := Metrics ep; stdout := stdout ep |}.

Definition print (l : line) (ep : EventProcessor) : EventProcessor :=
  {| Workers := Workers ep; processFrequency := processFrequency ep;
     Metrics := Metrics ep; stdout := stdout ep ++ [l] |}.

Definition add_TotalEvents (m : ProcessorMetrics) : ProcessorMetrics :=
  {| TotalEvents := atomic_AddInt64 (TotalEvents m) 1;
     ProcessedEvents := ProcessedEvents m;
     AnomaliesDetected := AnomaliesDetected m;
     ErrorCount := ErrorCount m |}.

Definition add_ProcessedEvents (m : ProcessorMetrics) : ProcessorMetrics :=
  {| TotalEvents := TotalEvents m;
     ProcessedEvents := atomic_AddInt64 (ProcessedEvents m) 1;
     AnomaliesDetected := AnomaliesDetected m;
     ErrorCount := ErrorCount m |}.

Definition add_AnomaliesDetected (m : ProcessorMetrics) : ProcessorMetrics :=
  {| TotalEvents := TotalEvents m;
     ProcessedEvents := ProcessedEvents m;
     AnomaliesDetected := atomic_AddInt64 (AnomaliesDetected m) 1;
     ErrorCount := ErrorCount m |}.

Definition add_ErrorCount (m : ProcessorMetrics) : ProcessorMetrics :=
  {| TotalEvents := TotalEvents m;
     ProcessedEvents := ProcessedEvents m;
     AnomaliesDetected := AnomaliesDetected m;
     ErrorCount := atomic_AddInt64 (ErrorCount m) 1 |}.

Definition GetMetrics (ep : EventProcessor) : ProcessorMetrics :=
  {| TotalEvents := TotalEvents (Metrics ep);
     ProcessedEvents := ProcessedEvents (Metrics ep);
     AnomaliesDetected := AnomaliesDetected (Metrics ep);
     ErrorCount := ErrorCount (Metrics ep) |}.

(** *** Feature extractor *)

(** [fe.processFrequency[proc]++]; a missing key reads as 0. *)
Definition updateProcessFrequency (proc : string) (t : gmap string Z) : gmap string Z :=
  <[proc := int_add (default 0 (t !! proc)) 1]> t.

Definition getProcessFrequency (proc : string) (t : gmap string Z) : Z :=
  default 0 (t !! proc).

Definition getTimeWindow `{Lib} (t : Time) : string :=
  Time_Format t "2006-01-02-15".

Definition sensitivePatterns : list string :=
  ["/etc/passwd"; "/etc/shadow"; "/etc/ssh"; "/root/.ssh"; ".kube/config";
   "token"; "secret"; "credential"; ".aws/credentials"]%string.

Definition isSensitiveFile (path : string) : bool :=
  existsb (fun pattern => contains path pattern) sensitivePatterns.

Definition Extract `{Lib} (t : gmap string Z) (event : SecurityEvent)
  : BehavioralFeatures * gmap string Z :=
  match Fields event with
  | None =>
      ({| ProcessName := ""; ProcessFrequency := 0; SyscallCount := ∅;
          FileAccessCount := 0; NetworkConnCount := 0; SensitiveFiles := [];
          CommandLine := ""; ParentProcess := ""; UserID := "";
          TimeWindow := getTimeWindow (Timestamp event);
          ContainerID := CI_ID (Container event);
          Namespace := CI_Namespace (Container event) |}, t)
  | Some fields =>
      let '(name, freq, t1) :=
        match lookup_string fields "proc.name" with
        | Some proc =>
            let t1 := updateProcessFrequency proc t in
            (proc, getProcessFrequency proc t1, t1)
        | None => (""%string, 0, t)
        end in
      let cmdline := default ""%string (lookup_string fields "proc.cmdline") in
      let parent := default ""%string (lookup_string fields "proc.pname") in
      let uid := default ""%string (lookup_string fields "user.uid") in
      let '(files, sensitive) :=
        match lookup_string fields "fd.name" with
        | Some fd_name =>
            (int_add 0 1, if isSensitiveFile fd_name then [] ++ [fd_name] else [])
        | None => (0, [])
        end in
      let conns :=
        match lookup_string fields "fd.sip" with
        | Some _ => int_add 0 1
        | None => 0
        end in
      ({| ProcessName := name; ProcessFrequency := freq; SyscallCount := ∅;
          FileAccessCount := files; NetworkConnCount := conns;
          SensitiveFiles := sensitive;
          CommandLine := cmdline; ParentProcess := parent; UserID := uid;
          TimeWindow := getTimeWindow (Timestamp event);
          ContainerID := CI_ID (Container event);
          Namespace := CI_Namespace (Container event) |}, t1)
  end.

(** *** Risk scoring *)

Definition knownThreats : list string :=
  ["Terminal shell in container"; "Modify binary dirs"; "Write below etc";
   "Sensitive file opened for reading"; "Netcat Remote Code Execution";
   "Launch Suspicious Network Tool"]%string.

Definition isKnownThreat (event : SecurityEvent) : bool :=
  if String.eqb (Priority event) "Critical" || String.eqb (Priority event) "Emergency"
  then true
  else existsb (fun threat => String.eqb (Rule event) threat) knownThreats.

Definition suspiciousProcesses : list string :=
  ["nc"; "ncat"; "netcat"; "wget"; "curl"]%string.

Definition getAIRiskScore (features : BehavioralFeatures) : float :=
  let score := 0%float in
  let score := if 0 <? Z.of_nat (length (SensitiveFiles features))
               then (score + 0.3)%float else score in
  let score := if 10 <? NetworkConnCount features
               then (score + 0.2)%float else score in
  let score := if 50 <? FileAccessCount features
               then (score + 0.2)%float else score in
  let score := if existsb (fun proc => String.eqb (ProcessName features) proc)
                          suspiciousProcesses
               then (score + 0.4)%float else score in
  score.

(** [storeForensicData] only prints; it always returns [nil]. *)
Definition storeForensicData (event : ProcessedEvent) (ep : EventProcessor)
  : error * EventProcessor :=
  (None, print (AnomalyDetected (RiskScore event) (Rule (Original event))
                                (CI_Name (Container (Original event)))) ep).

Definition set_score (score : float) (anomaly : bool) (p : ProcessedEvent) : ProcessedEvent :=
  {| Original := Original p; Features := Features p;
     PE_Timestamp := PE_Timestamp p; RiskScore := score; Anomaly := anomaly |}.

(** [processEvent]; [now] is the reading of [time.Now()]. Besides the
    error the Go function returns, the result carries the final value of
    its local variable [processed]. *)
Definition processEvent `{Lib} (now : Time) (event : SecurityEvent) (ep : EventProcessor)
  : (error * ProcessedEvent) * EventProcessor :=
  let '(features, t1) := Extract (processFrequency ep) event in
  let ep := set_processFrequency t1 ep in
  let processed :=
    {| Original := event; Features := features; PE_Timestamp := now;
       RiskScore := 0; Anomaly := false |} in
  let '(processed, ep) :=
    if isKnownThreat event
    then (set_score 0.95 true processed,
          set_Metrics (add_AnomaliesDetected (Metrics ep)) ep)
    else (processed, ep) in
  let aiScore := getAIRiskScore features in
  let processed :=
    if (RiskScore processed <? aiScore)%float
    then set_score aiScore (Anomaly processed) processed
    else processed in
  let '(processed, ep) :=
    if (0.75 <? aiScore)%float
    then (set_score (RiskScore processed) true processed,
          set_Metrics (add_AnomaliesDetected (Metrics ep)) ep)
    else (processed, ep) in
  if Anomaly processed
  then
    match storeForensicData processed ep with
    | (Some err, ep) =>
        (Some ("failed to store forensic data: " +:+ err)%string, processed, ep)
    | (None, ep) => (None, processed, ep)
    end
  else (None, processed, ep).

(** The body of the worker's [case event, ok := <-eventChan] for a
    received event ([ok] true). *)
Definition worker_handle `{Lib} (id : Z) (now : Time) (event : SecurityEvent)
  (ep : EventProcessor) : EventProcessor :=
  let ep := set_Metrics (add_TotalEvents (Metrics ep)) ep in
  match processEvent now event ep with
  | (Some err, _, ep) =>
      print (WorkerError id err) (set_Metrics (add_ErrorCount (Metrics ep)) ep)
  | (None, _, ep) =>
      set_Metrics (add_ProcessedEvents (Metrics ep)) ep
  end.

(** The worker's loop body run on the events it receives, in order; each
    event comes with the clock reading taken while it is processed. *)
Definition worker_run `{Lib} (id : Z) (events : list (Time * SecurityEvent))
  (ep : EventProcessor) : EventProcessor :=
  fold_left (fun ep ne => worker_handle id (fst ne) (snd ne) ep) events ep.

(** *** Monitor *)

Record MonitorConfig := {
  FalcoSocket : string;
  BufferSize : Z;
  MC_Workers : Z;
  MC_Namespace : string;
  Deployment : string;
}.

(** A buffered [chan SecurityEvent]: the events waiting in it (oldest
    first), its capacity, and whether [close] was called. *)
Record chan := {
  buf : list SecurityEvent;
  cap : Z;
  closed : bool;
}.

Definition make_chan (size : Z) : chan :=
  {| buf := []; cap := size; closed := false |}.

Record Monitor := {
  Config : MonitorConfig;
  EventChan : chan;
  Processor : EventProcessor;
  ctx_done : bool;
  wg : Z;
}.

Definition NewMonitor (config : MonitorConfig) : Monitor :=
  {| Config := config;
     EventChan := make_chan (BufferSize config);
     Processor := NewEventProcessor (MC_Workers config);
     ctx_done := false;
     wg := 0 |}.

Definition set_EventChan (c : chan) (m : Monitor) : Monitor :=
  {| Config := Config m; EventChan := c; Processor := Processor m;
     ctx_done := ctx_done m; wg := wg m |}.

Definition set_Processor (ep : EventProcessor) (m : Monitor) : Monitor :=
  {| Config := Config m; EventChan := EventChan m; Processor := ep;
     ctx_done := ctx_done m; wg := wg m |}.

Definition set_ctx_done (b : bool) (m : Monitor) : Monitor :=
  {| Config := Config m; EventChan := EventChan m; Processor := Processor m;
     ctx_done := b; wg := wg m |}.

Definition set_wg (n : Z) (m : Monitor) : Monitor :=
  {| Config := Config m; EventChan := EventChan m; Processor := Processor m;
     ctx_done := ctx_done m; wg := n |}.

Definition mprint (l : line) (m : Monitor) : Monitor :=
  set_Processor (print l (Processor m)) m.

Definition parseEvent `{Lib} (data : string) : SecurityEvent * error :=
  json_Unmarshal data.

Definition shouldProcessEvent (m : Monitor) (event : SecurityEvent) : bool :=
  if negb (String.eqb (MC_Namespace (Config m)) "") &&
     negb (String.eqb (CI_Namespace (Container event)) (MC_Namespace (Config m)))
  then false
  else if negb (String.eqb (Deployment (Config m)) "") &&
          (String.eqb (CI_PodName (Container event)) "" ||
           negb (contains (CI_PodName (Container event)) (Deployment (Config m))))
  then false
  else true.

(** Outcome of [select { case ch <- event: default: ... }]. *)
Inductive send_result : Type :=
  | Sent (c : chan)
  | WouldBlock
  | SendOnClosed.

(** The send case of a [select] is ready when a receiver is parked on the
    channel ([receiver_parked]; only possible while the buffer is empty) or
    the buffer has room; a send on a closed channel panics. *)
Definition send_nowait (receiver_parked : bool) (event : SecurityEvent) (c : chan)
  : send_result :=
  if closed c then SendOnClosed
  else if receiver_parked || (Z.of_nat (length (buf c)) <? cap c)
  then Sent {| buf := buf c ++ [event]; cap := cap c; closed := closed c |}
  else WouldBlock.

(** Lines 141-147 of [consumeFalcoEvents]: the non-blocking send. *)
Inductive flow : Type :=
  | Continue
  | Return (e : error)
  | Panic.

Definition enqueue (receiver_parked : bool) (event : SecurityEvent) (m : Monitor)
  : flow * Monitor :=
  match send_nowait receiver_parked event (EventChan m) with
  | Sent c => (Continue, set_EventChan c m)
  | WouldBlock => (Continue, mprint ChannelFullWarning m)
  | SendOnClosed => (Panic, m)
  end.

(** What [scanner.Scan()] delivered. *)
Inductive scan_result : Type :=
  | ScanLine (data : string)
  | ScanEOF
  | ScanErr (err : string).

(** The [default] branch of the loop's outer [select]: scan a line,
    parse, filter, enqueue. *)
Definition consume_body `{Lib} (scan : scan_result) (receiver_parked : bool)
  (m : Monitor) : flow * Monitor :=
  match scan with
  | ScanEOF => (Return None, m)
  | ScanErr err => (Return (Some ("scanner error: " +:+ err)%string), m)
  | ScanLine data =>
      match parseEvent data with
      | (_, Some err) => (Continue, mprint (ParseWarning err) m)
      | (event, None) =>
          if negb (shouldProcessEvent m event) then (Continue, m)
          else enqueue receiver_parked event m
      end
  end.

(** One iteration of the [for] loop of [consumeFalcoEvents]. *)
Definition consume_iteration `{Lib} (scan : scan_result) (receiver_parked : bool)
  (m : Monitor) : flow * Monitor :=
  if ctx_done m then (Return None, m)
  else consume_body scan receiver_parked m.

(** [Monitor.Start] up to the point where its goroutines are spawned:
    two of them are registered with [m.wg]. *)
Definition Start (m : Monitor) : Monitor :=
  let m := mprint StartingMonitor m in
  let m := set_wg (int_add (wg m) 1) m in
  set_wg (int_add (wg m) 1) m.

(** The three statements of [Stop] after its [Println]; [wg.Wait()]
    returns only once the counter is zero. *)
Definition Stop_cancel (m : Monitor) : Monitor :=
  set_ctx_done true (mprint StoppingMonitor m).

Definition Stop_wait_returns (m : Monitor) : bool := wg m =? 0.

Definition Stop_close (m : Monitor) : flow * Monitor :=
  if closed (EventChan m) then (Panic, m)
  else (Return None,
        set_EventChan {| buf := buf (EventChan m); cap := cap (EventChan m);
                         closed := true |} m).

(** *** The goroutines of a started monitor

    An interleaving semantics at the granularity of the statements above.
    [Stop] runs in the caller's goroutine; the ingestion task and the
    metrics collector are registered with [m.wg]; the workers are
    registered with the [WaitGroup] local to [EventProcessor.Start], on
    which only the goroutine printing the final message waits. *)

Inductive stop_pc : Type := BeforeCancel | Waiting | BeforeClose | Stopped.
Inductive ingest_pc : Type := AtDial | AtSelect | AtScan | IngestExited.
Inductive worker_pc : Type := WStart | WLoop | WExited.
Inductive task : Type := Running | Exited.

Record System := {
  mon : Monitor;
  stop : stop_pc;
  ingest : ingest_pc;
  collector : task;
  workers : list worker_pc;
  joiner : task;
}.

Definition with_mon (m : Monitor) (s : System) : System :=
  {| mon := m; stop := stop s; ingest := ingest s; collector := collector s;
     workers := workers s; joiner := joiner s |}.

Definition with_stop (p : stop_pc) (s : System) : System :=
  {| mon := mon s; stop := p; ingest := ingest s; collector := collector s;
     workers := workers s; joiner := joiner s |}.

Definition with_ingest (p : ingest_pc) (s : System) : System :=
  {| mon := mon s; stop := stop s; ingest := p; collector := collector s;
     workers := workers s; joiner := joiner s |}.

Definition with_collector (t : task) (s : System) : System :=
  {| mon := mon s; stop := stop s; ingest := ingest s; collector := t;
     workers := workers s; joiner := joiner s |}.

Definition with_workers (w : list worker_pc) (s : System) : System :=
  {| mon := mon s; stop := stop s; ingest := ingest s; collector := collector s;
     workers := w; joiner := joiner s |}.

Definition with_joiner (t : task) (s : System) : System :=
  {| mon := mon s; stop := stop s; ingest := ingest s; collector := collector s;
     workers := workers s; joiner := t |}.

(** [defer m.wg.Done()] *)
Definition wg_Done (m : Monitor) : Monitor := set_wg (int_add (wg m) (-1)) m.

(** The state right after [Monitor.Start] returned on a fresh monitor. *)
Definition started (config : MonitorConfig) : System :=
  {| mon := Start (NewMonitor config);
     stop := BeforeCancel;
     ingest := AtDial;
     collector := Running;
     workers := replicate (Z.to_nat (MC_Workers config)) WStart;
     joiner := Running |}.

Definition dequeue (rest : list SecurityEvent) (m : Monitor) : Monitor :=
  set_EventChan {| buf := rest; cap := cap (EventChan m);
                   closed := closed (EventChan m) |} m.

Inductive step `{Lib} : System -> System -> Prop :=
  (* Stop *)
  | step_stop_cancel s :
      stop s = BeforeCancel ->
      step s (with_stop Waiting (with_mon (Stop_cancel (mon s)) s))
  | step_stop_wait s :
      stop s = Waiting ->
      Stop_wait_returns (mon s) = true ->
      step s (with_stop BeforeClose s)
  | step_stop_close s m :
      stop s = BeforeClose ->
      Stop_close (mon s) = (Return None, m) ->
      step s (with_stop Stopped (with_mon m s))
  (* consumeFalcoEvents *)
  | step_ingest_dial_ok s :
      ingest s = AtDial ->
      step s (with_ingest AtSelect (with_mon (mprint ConnectedToFalco (mon s)) s))
  | step_ingest_dial_fail s err :
      ingest s = AtDial ->
      step s (with_ingest IngestExited
                (with_mon (wg_Done
                   (mprint (ConsumeError ("failed to connect to Falco socket: " +:+ err))
                           (mon s))) s))
  | step_ingest_select_done s :
      ingest s = AtSelect ->
      ctx_done (mon s) = true ->
      step s (with_ingest IngestExited (with_mon (wg_Done (mon s)) s))
  | step_ingest_select_default s :
      ingest s = AtSelect ->
      ctx_done (mon s) = false ->
      step s (with_ingest AtScan s)
  | step_ingest_continue s scan parked m :
      ingest s = AtScan ->
      (parked = true -> buf (EventChan (mon s)) = [] /\ WLoop ∈ workers s) ->
      consume_body scan parked (mon s) = (Continue, m) ->
      step s (with_ingest AtSelect (with_mon m s))
  | step_ingest_return s scan parked m :
      ingest s = AtScan ->
      (parked = true -> buf (EventChan (mon s)) = [] /\ WLoop ∈ workers s) ->
      consume_body scan parked (mon s) = (Return None, m) ->
      step s (with_ingest IngestExited (with_mon (wg_Done m) s))
  | step_ingest_fail s scan parked m err :
      ingest s = AtScan ->
      (parked = true -> buf (EventChan (mon s)) = [] /\ WLoop ∈ workers s) ->
      consume_body scan parked (mon s) = (Return (Some err), m) ->
      step s (with_ingest IngestExited
                (with_mon (wg_Done (mprint (ConsumeError err) m)) s))
  (* collectMetrics *)
  | step_collector_done s :
      collector s = Running ->
      ctx_done (mon s) = true ->
      step s (with_collector Exited (with_mon (wg_Done (mon s)) s))
  | step_collector_tick s :
      collector s = Running ->
      step s (with_mon
                (mprint (MetricsLine
                           (TotalEvents (GetMetrics (Processor (mon s))))
                           (ProcessedEvents (GetMetrics (Processor (mon s))))
                           (AnomaliesDetected (GetMetrics (Processor (mon s)))))
                        (mon s)) s)
  (* worker *)
  | step_worker_start s (i : nat) :
      workers s !! i = Some WStart ->
      step s (with_workers (<[i := WLoop]> (workers s))
                (with_mon (mprint (WorkerStarted (Z.of_nat i)) (mon s)) s))
  | step_worker_done s (i : nat) :
      workers s !! i = Some WLoop ->
      ctx_done (mon s) = true ->
      step s (with_workers (<[i := WExited]> (workers s))
                (with_mon (mprint (WorkerStopping (Z.of_nat i)) (mon s)) s))
  | step_worker_receive s (i : nat) now event rest :
      workers s !! i = Some WLoop ->
      buf (EventChan (mon s)) = event :: rest ->
      step s (with_mon
                (set_Processor
                   (worker_handle (Z.of_nat i) now event (Processor (mon s)))
                   (dequeue rest (mon s))) s)
  | step_worker_closed s (i : nat) :
      workers s !! i = Some WLoop ->
      closed (EventChan (mon s)) = true ->
      buf (EventChan (mon s)) = [] ->
      step s (with_workers (<[i := WExited]> (workers s))
                (with_mon (mprint (WorkerChannelClosed (Z.of_nat i)) (mon s)) s))
  (* the goroutine of EventProcessor.Start waiting on the workers *)
  | step_joiner s :
      joiner s = Running ->
      Forall (fun w => w = WExited) (workers s) ->
      step s (with_joiner Exited (with_mon (mprint AllProcessorsStopped (mon s)) s)).

Definition reachable `{Lib} (s0 s : System) : Prop := rtc step s0 s.

End Runtime.

(** ** package forensics *)

Module Forensics.

Record ContainerContext := {
  CC_ID : string;
  CC_Name : string;
  CC_Image : string;
  CC_Namespace : string;
  CC_PodName : string;
  CC_Labels : option (gmap string string);
}.

Record SecurityEvent := {
  SE_Timestamp : Time;
  SE_Rule : string;
  SE_Priority : string;
  SE_Output : string;
  SE_Fields : option (gmap string value);
}.

Record SystemCall := {
  SC_Timestamp : Time;
  SC_Name : string;
  SC_Process : string;
  SC_PID : Z;
  SC_Args : list string;
  SC_ReturnVal : Z;
}.

Record NetworkTrace := {
  NT_Timestamp : Time;
  NT_Protocol : string;
  NT_SourceIP : string;
  NT_SourcePort : Z;
  NT_DestIP : string;
  NT_DestPort : Z;
  NT_BytesSent : Z;
  NT_BytesRecv : Z;
}.

Record FileOperation := {
  FO_Timestamp : Time;
  FO_Operation : string;
  FO_FilePath : string;
  FO_Process : string;
  FO_PID : Z;
  FO_Success : bool;
}.

Record ForensicRecord := {
  ID : string;
  Timestamp : Time;
  IncidentType : string;
  Severity : string;
  RiskScore : float;
  Container : ContainerContext;
  Events : list SecurityEvent;
  SystemCalls : list SystemCall;
  NetworkTraces : list NetworkTrace;
  FileOperations : list FileOperation;
  Metadata : option (gmap string value);
}.

Definition set_ID (id : string) (r : ForensicRecord) : ForensicRecord :=
  {| ID := id; Timestamp := Timestamp r; IncidentType := IncidentType r;
     Severity := Severity r; RiskScore := RiskScore r; Container := Container r;
     Events := Events r; SystemCalls := SystemCalls r;
     NetworkTraces := NetworkTraces r; FileOperations := FileOperations r;
     Metadata := Metadata r |}.

Definition set_Timestamp (t : Time) (r : ForensicRecord) : ForensicRecord :=
  {| ID := ID r; Timestamp := t; IncidentType := IncidentType r;
     Severity := Severity r; RiskScore := RiskScore r; Container := Container r;
     Events := Events r; SystemCalls := SystemCalls r;
     NetworkTraces := NetworkTraces r; FileOperations := FileOperations r;
     Metadata := Metadata r |}.

Record VaultConfig := {
  StoragePath : string;
  RetentionDays : Z;
  MaxSizeMB : Z;
  Compression : bool;
}.

Record StorageBackend := { BasePath : string }.

Record RetentionPolicy := {
  RP_RetentionDays : Z;
  RP_MaxSizeMB : Z;
}.

Record Vault := {
  Config : VaultConfig;
  Storage : StorageBackend;
  Policy : RetentionPolicy;
}.

Inductive line : Type :=
  | StoredRecord (id severity : string) (risk : float).

(** What [forensics] needs from [time], [encoding/json], [path/filepath]
    and [io/ioutil]. [FS] is the state of the file system. *)
Class Lib := {
  FS : Type;
  Time_Format : Time -> string -> string;
  json_MarshalIndent : ForensicRecord -> string * error;
  json_Unmarshal : string -> ForensicRecord * error;
  filepath_Join : string -> string -> string;
  filepath_Glob : FS -> string -> list string * error;
  ioutil_ReadFile : FS -> string -> string * error;
  ioutil_WriteFile : FS -> string -> string -> FS * error;
}.

(** The world a vault acts on: the file system and standard output. *)
Record World `{Lib} := {
  disk : FS;
  stdout : list line;
}.

Definition NewStorageBackend (basePath : string) : StorageBackend :=
  {| BasePath := basePath |}.

Definition NewRetentionPolicy (days maxSizeMB : Z) : RetentionPolicy :=
  {| RP_RetentionDays := days; RP_MaxSizeMB := maxSizeMB |}.

Definition ShouldRetain (rp : RetentionPolicy) (record : ForensicRecord) : bool :=
  if String.eqb (Severity record) "critical" || String.eqb (Severity record) "high"
  then true
  else if String.eqb (Severity record) "medium" && (0.7 <? RiskScore record)%float
  then true
  else if negb (String.eqb (IncidentType record) "") &&
          negb (String.eqb (IncidentType record) "false-positive")
  then true
  else false.

(** [fmt.Sprintf("%d", time.Now().UnixNano())] *)
Definition generateID (now : Time) : string := pretty (Time_UnixNano now).

(** [StoreRecord]; [now_id] and [now_ts] are the two readings of
    [time.Now()] the function may take. *)
Definition StoreRecord `{Lib} (v : Vault) (now_id now_ts : Time)
  (record : ForensicRecord) (w : World) : error * World :=
  let record := if String.eqb (ID record) "" then set_ID (generateID now_id) record
                else record in
  let record := if Time_IsZero (Timestamp record) then set_Timestamp now_ts record
                else record in
  if negb (ShouldRetain (Policy v) record)
  then (Some "record does not meet retention criteria"%string, w)
  else
    match json_MarshalIndent record with
    | (_, Some err) => (Some ("failed to marshal record: " +:+ err)%string, w)
    | (data, None) =>
        let filename :=
          (Time_Format (Timestamp record) "20060102_150405" +:+ "_" +:+
           ID record +:+ ".json")%string in
        let path := filepath_Join (StoragePath (Config v)) filename in
        match ioutil_WriteFile (disk w) path data with
        | (d, Some err) =>
            (Some ("failed to write record: " +:+ err)%string,
             {| disk := d; stdout := stdout w |})
        | (d, None) =>
            (None,
             {| disk := d;
                stdout := stdout w ++
                  [StoredRecord (ID record) (Severity record) (RiskScore record)] |})
        end
    end.

(** The [for _, file := range files] loop of [ListRecords]. *)
Fixpoint ListRecords_loop `{Lib} (d : FS) (from to : Time) (files : list string)
  (records : list ForensicRecord) : list ForensicRecord :=
  match files with
  | [] => records
  | file :: files =>
      match ioutil_ReadFile d file with
      | (_, Some _) => ListRecords_loop d from to files records
      | (data, None) =>
          match json_Unmarshal data with
          | (_, Some _) => ListRecords_loop d from to files records
          | (record, None) =>
              if Time_After (Timestamp record) from && Time_Before (Timestamp record) to
              then ListRecords_loop d from to files (records ++ [record])
              else ListRecords_loop d from to files records
          end
      end
  end.

(** [ListRecords] returns [(records, nil)] or [(nil, err)]; a nil slice is
    the empty list. *)
Definition ListRecords `{Lib} (v : Vault) (from to : Time) (w : World)
  : list ForensicRecord * error :=
  match filepath_Glob (disk w) (filepath_Join (StoragePath (Config v)) "*.json") with
  | (_, Some err) => ([], Some err)
  | (files, None) => (ListRecords_loop (disk w) from to files [], None)
  end.

(** What [CleanupOldRecords] needs beyond [Lib]: [os.Stat] (of which
    only the modification time is used), [os.Remove] and the calendar
    arithmetic of [Time.AddDate]. *)
Class OS `{Lib} := {
  Time_AddDate : Time -> Z -> Z -> Z -> Time;
  os_Stat : FS -> string -> Time * error;
  os_Remove : FS -> string -> FS * error;
}.

(** Lines [CleanupOldRecords] writes to standard output. *)
Inductive cleanup_line : Type :=
  | DeleteWarning (file err : string)
  | CleanedUp (deleted : Z).

(** The [for _, file := range files] loop of [CleanupOldRecords]: the
    file system, the counter [deleted] and the lines printed so far. *)
Fixpoint CleanupOldRecords_loop `{OS} (cutoff : Time) (files : list string)
  (d : FS) (deleted : Z) (out : list cleanup_line) : FS * Z * list cleanup_line :=
  match files with
  | [] => (d, deleted, out)
  | file :: files =>
      match os_Stat d file with
      | (_, Some _) => CleanupOldRecords_loop cutoff files d deleted out
      | (modTime, None) =>
          if Time_Before modTime cutoff
          then
            match os_Remove d file with
            | (d1, Some err) =>
                CleanupOldRecords_loop cutoff files d1 deleted
                  (out ++ [DeleteWarning file err])
            | (d1, None) =>
                CleanupOldRecords_loop cutoff files d1 (int_add deleted 1) out
            end
          else CleanupOldRecords_loop cutoff files d deleted out
      end
  end.

(** [CleanupOldRecords]; [now] is the reading of [time.Now()]. The result
    is the error returned, the file system left behind and the lines
    printed. *)
Definition CleanupOldRecords `{OS} (v : Vault) (now : Time) (d : FS)
  : error * FS * list cleanup_line :=
  let cutoff := Time_AddDate now 0 0 (wrap64 (- RetentionDays (Config v))) in
  match filepath_Glob d (filepath_Join (StoragePath (Config v)) "*.json") with
  | (_, Some err) => (Some err, d, [])
  | (files, None) =>
      let '(d1, deleted, out) := CleanupOldRecords_loop cutoff files d 0 [] in
      (None, d1, if 0 <? deleted then out ++ [CleanedUp deleted] else out)
  end.

End Forensics.

(** ** package static *)

Module Static.

(** A decoded YAML value held in an [interface{}]: [nil], the scalar
    types, [[]interface{}], [map[string]interface{}], and anything else
    the decoder may produce (a map with non-string keys, a timestamp). *)
Inductive yvalue : Type :=
  | YNil
  | YBool (b : bool)
  | YInt (n : Z)
  | YFloat (f : float)
  | YString (s : string)
  | YSeq (l : list yvalue)
  | YMap (m : gmap string yvalue)
  | YOther.

(** Type assertions [v.(T)] on the result of a map lookup; a missing key
    reads as [nil], on which every assertion fails. *)
Definition as_map (v : option yvalue) : option (gmap string yvalue) :=
  match v with Some (YMap m) => Some m | _ => None end.

Definition as_seq (v : option yvalue) : option (list yvalue) :=
  match v with Some (YSeq l) => Some l | _ => None end.

Definition as_bool (v : option yvalue) : option bool :=
  match v with Some (YBool b) => Some b | _ => None end.

Definition as_string (v : option yvalue) : option string :=
  match v with Some (YString s) => Some s | _ => None end.

(** [m[key] == nil] *)
Definition is_nil (v : option yvalue) : bool :=
  match v with None | Some YNil => true | _ => false end.

Record Violation := {
  RuleID : string;
  Severity : string;
  Message : string;
  Resource : string;
  LineNumber : Z;
  Remediation : string;
}.

Record K8sResource := {
  APIVersion : string;
  Kind : string;
  Metadata : gmap string yvalue;
  Spec : gmap string yvalue;
}.

(** The rules engine's own [contains]. *)
Fixpoint contains (s substr : string) : bool :=
  (len substr <=? len s) && negb (String.eqb s substr) &&
  ((len s =? 0) || (len substr =? 0) ||
   String.eqb (slice_to s (len substr)) substr ||
   match s with
   | EmptyString => false
   | String _ s1 => contains s1 substr
   end).

(** The inner loops of [getContainers]: keep the entries that are maps. *)
Definition only_maps (containersList : list yvalue) : list (gmap string yvalue) :=
  omap (fun c => as_map (Some c)) containersList.

Definition getContainers (resource : K8sResource) : list (gmap string yvalue) :=
  let containers := [] in
  let containers :=
    if String.eqb (Kind resource) "Pod"
    then match as_seq (Spec resource !! "containers") with
         | Some containersList => containers ++ only_maps containersList
         | None => containers
         end
    else containers in
  let containers :=
    if String.eqb (Kind resource) "Deployment"
    then match as_map (Spec resource !! "template") with
         | Some template =>
             match as_map (template !! "spec") with
             | Some spec =>
                 match as_seq (spec !! "containers") with
                 | Some containersList => containers ++ only_maps containersList
                 | None => containers
                 end
             | None => containers
             end
         | None => containers
         end
    else containers in
  containers.

Definition getResourceName (resource : K8sResource) : string :=
  match as_string (Metadata resource !! "name") with
  | Some name => name
  | None => "unknown"
  end.

(** [fmt.Sprintf("%s/%s", resource.Kind, s.getResourceName(resource))] *)
Definition resource_label (resource : K8sResource) : string :=
  (Kind resource +:+ "/" +:+ getResourceName resource)%string.

Definition violation (id severity message : string) (resource : K8sResource)
  (remediation : string) : Violation :=
  {| RuleID := id; Severity := severity; Message := message;
     Resource := resource_label resource; LineNumber := 0;
     Remediation := remediation |}.

(** The guard every built-in check starts with. *)
Definition not_a_workload (resource : K8sResource) : bool :=
  negb (String.eqb (Kind resource) "Pod") &&
  negb (String.eqb (Kind resource) "Deployment").

Fixpoint checkPrivilegedContainers_loop (resource : K8sResource)
  (containers : list (gmap string yvalue)) : option Violation :=
  match containers with
  | [] => None
  | container :: containers =>
      match as_map (container !! "securityContext") with
      | Some securityContext =>
          match as_bool (securityContext !! "privileged") with
          | Some true =>
              Some (violation "SEC-001" "critical" "Privileged container detected"
                      resource
                      "Remove 'privileged: true' from securityContext or set to false")
          | _ => checkPrivilegedContainers_loop resource containers
          end
      | None => checkPrivilegedContainers_loop resource containers
      end
  end.

Definition checkPrivilegedContainers (resource : K8sResource) : option Violation :=
  if not_a_workload resource then None
  else checkPrivilegedContainers_loop resource (getContainers resource).

Fixpoint checkResourceLimits_loop (resource : K8sResource)
  (containers : list (gmap string yvalue)) : option Violation :=
  match containers with
  | [] => None
  | container :: containers =>
      match as_map (container !! "resources") with
      | None =>
          Some (violation "SEC-002" "high" "Container missing resource limits" resource
                  "Add resources.limits.cpu and resources.limits.memory to container spec")
      | Some resources =>
          match as_map (resources !! "limits") with
          | None =>
              Some (violation "SEC-002" "high" "Container missing CPU or memory limits"
                      resource "Define both CPU and memory limits in resources.limits")
          | Some limits =>
              if is_nil (limits !! "cpu") || is_nil (limits !! "memory")
              then Some (violation "SEC-002" "high"
                           "Container missing CPU or memory limits" resource
                           "Define both CPU and memory limits in resources.limits")
              else checkResourceLimits_loop resource containers
          end
      end
  end.

Definition checkResourceLimits (resource : K8sResource) : option Violation :=
  if not_a_workload resource then None
  else checkResourceLimits_loop resource (getContainers resource).

Fixpoint checkNonRootUser_loop (resource : K8sResource)
  (containers : list (gmap string yvalue)) : option Violation :=
  match containers with
  | [] => None
  | container :: containers =>
      match as_map (container !! "securityContext") with
      | Some securityContext =>
          match as_bool (securityContext !! "runAsNonRoot") with
          | Some true => checkNonRootUser_loop resource containers
          | _ =>
              Some (violation "SEC-003" "medium" "Container may run as root user"
                      resource "Set securityContext.runAsNonRoot: true")
          end
      | None =>
          Some (violation "SEC-003" "medium"
                  "Missing security context for non-root enforcement" resource
                  "Add securityContext with runAsNonRoot: true")
      end
  end.

Definition checkNonRootUser (resource : K8sResource) : option Violation :=
  if not_a_workload resource then None
  else checkNonRootUser_loop resource (getContainers resource).

Fixpoint checkReadOnlyRootFS_loop (resource : K8sResource)
  (containers : list (gmap string yvalue)) : option Violation :=
  match containers with
  | [] => None
  | container :: containers =>
      match as_map (container !! "securityContext") with
      | Some securityContext =>
          match as_bool (securityContext !! "readOnlyRootFilesystem") with
          | Some true => checkReadOnlyRootFS_loop resource containers
          | _ =>
              Some (violation "SEC-004" "medium" "Container filesystem is not read-only"
                      resource "Set securityContext.readOnlyRootFilesystem: true")
          end
      | None => checkReadOnlyRootFS_loop resource containers
      end
  end.

Definition checkReadOnlyRootFS (resource : K8sResource) : option Violation :=
  if not_a_workload resource then None
  else checkReadOnlyRootFS_loop resource (getContainers resource).

Fixpoint checkSecurityContext_loop (resource : K8sResource)
  (containers : list (gmap string yvalue)) : option Violation :=
  match containers with
  | [] => None
  | container :: containers =>
      match container !! "securityContext" with
      | None =>
          Some (violation "SEC-005" "low" "Container missing security context" resource
                  "Add comprehensive securityContext with appropriate settings")
      | Some _ => checkSecurityContext_loop resource containers
      end
  end.

Definition checkSecurityContext (resource : K8sResource) : option Violation :=
  if not_a_workload resource then None
  else checkSecurityContext_loop resource (getContainers resource).

(** The part of [scanResource] that runs the five built-in checks, in
    its order. *)
Definition builtin_violations (resource : K8sResource) : list Violation :=
  let violations := [] in
  let violations := match checkPrivilegedContainers resource with
                    | Some v => violations ++ [v] | None => violations end in
  let violations := match checkResourceLimits resource with
                    | Some v => violations ++ [v] | None => violations end in
  let violations := match checkNonRootUser resource with
                    | Some v => violations ++ [v] | None => violations end in
  let violations := match checkReadOnlyRootFS resource with
                    | Some v => violations ++ [v] | None => violations end in
  let violations := match checkSecurityContext resource with
                    | Some v => violations ++ [v] | None => violations end in
  violations.

End Static.

(** ** Concrete inputs used to exercise the definitions *)

Module Fixtures.

Definition no_container : Runtime.ContainerInfo :=
  {| Runtime.CI_ID := "c0ffee"; Runtime.CI_Name := "web"; Runtime.CI_Image := "nginx";
     Runtime.CI_Namespace := "prod"; Runtime.CI_PodName := "web-7d9f" |}.

Definition event (priority rule : string) (fields : option (gmap string value))
  : Runtime.SecurityEvent :=
  {| Runtime.Timestamp := 1700000000000000000; Runtime.Priority := priority;
     Runtime.Rule := rule; Runtime.Output := ""; Runtime.Source := "syscall";
     Runtime.Tags := []; Runtime.Fields := fields;
     Runtime.Container := no_container |}.

(** A stand-in for the standard library on the runtime side: the time
    window is the layout itself and no input line decodes. *)
Definition runtime_lib : Runtime.Lib :=
  {| Runtime.Time_Format := fun _ layout => layout;
     Runtime.json_Unmarshal := fun _ => (event "" "" None, Some "invalid character"%string) |}.

Definition critical_event : Runtime.SecurityEvent :=
  event "Critical" "Unexpected outbound connection" None.

Definition shadow_event : Runtime.SecurityEvent :=
  event "Warning" "Read below etc"
        (Some {[ "fd.name"%string := VString "/etc/shadow" ]}).

Definition benign_event : Runtime.SecurityEvent :=
  event "Notice" "Package installed"
        (Some {[ "proc.name"%string := VString "apt" ]}).

Definition shell_by_curl : Runtime.SecurityEvent :=
  event "Warning" "Terminal shell in container"
        (Some {[ "proc.name"%string := VString "curl" ]}).

Definition config : Runtime.MonitorConfig :=
  {| Runtime.FalcoSocket := "/var/run/falco.sock"; Runtime.BufferSize := 10;
     Runtime.MC_Workers := 1; Runtime.MC_Namespace := ""; Runtime.Deployment := "" |}.

Definition a_container : Forensics.ContainerContext :=
  {| Forensics.CC_ID := "c0ffee"; Forensics.CC_Name := "web";
     Forensics.CC_Image := "nginx"; Forensics.CC_Namespace := "prod";
     Forensics.CC_PodName := "web-7d9f"; Forensics.CC_Labels := None |}.

Definition record (id : string) (ts : Time) (incident severity : string) (risk : float)
  : Forensics.ForensicRecord :=
  {| Forensics.ID := id; Forensics.Timestamp := ts;
     Forensics.IncidentType := incident; Forensics.Severity := severity;
     Forensics.RiskScore := risk; Forensics.Container := a_container;
     Forensics.Events := []; Forensics.SystemCalls := [];
     Forensics.NetworkTraces := []; Forensics.FileOperations := [];
     Forensics.Metadata := None |}.

Definition critical_record : Forensics.ForensicRecord :=
  record "r1" 100 "" "critical" 0.1.

Definition low_record : Forensics.ForensicRecord :=
  record "r2" 200 "" "low" 0.99.

Definition at_from : Forensics.ForensicRecord := record "a" 100 "" "high" 0.5.
Definition inside : Forensics.ForensicRecord := record "b" 150 "" "high" 0.5.
Definition at_to : Forensics.ForensicRecord := record "c" 200 "" "high" 0.5.

(** A stand-in for the standard library on the vault side. The file
    system is a list of (path, content) pairs; a record is written as its
    identifier, and the contents "a", "b" and "c" decode to the three
    records above, anything else is malformed. *)
Definition read_file (d : list (string * string)) (path : string) : string * error :=
  match list_find (fun e => e.1 = path) d with
  | Some (_, (_, data)) => (data, None)
  | None => (""%string, Some "no such file or directory"%string)
  end.

Definition decode (data : string) : Forensics.ForensicRecord * error :=
  if String.eqb data "a" then (at_from, None)
  else if String.eqb data "b" then (inside, None)
  else if String.eqb data "c" then (at_to, None)
  else (record "" zero_Time "" "" 0, Some "unexpected end of JSON input"%string).

Definition vault_lib : Forensics.Lib :=
  {| Forensics.FS := list (string * string);
     Forensics.Time_Format := fun t _ => pretty t;
     Forensics.json_MarshalIndent := fun r => (Forensics.ID r, None);
     Forensics.json_Unmarshal := decode;
     Forensics.filepath_Join := fun dir name => (dir +:+ "/" +:+ name)%string;
     Forensics.filepath_Glob := fun d _ => (d.*1, None);
     Forensics.ioutil_ReadFile := read_file;
     Forensics.ioutil_WriteFile := fun d path data => (d ++ [(path, data)], None) |}.

Definition vault : Forensics.Vault :=
  {| Forensics.Config :=
       {| Forensics.StoragePath := "/var/lib/forensics"; Forensics.RetentionDays := 90;
          Forensics.MaxSizeMB := 1024; Forensics.Compression := false |};
     Forensics.Storage := Forensics.NewStorageBackend "/var/lib/forensics";
     Forensics.Policy := Forensics.NewRetentionPolicy 90 1024 |}.

(** A store holding the three records and one corrupt file. *)
Definition four_files : @Forensics.World vault_lib :=
  @Forensics.Build_World vault_lib
    [("/var/lib/forensics/1_a.json", "a"); ("/var/lib/forensics/2_x.json", "{");
     ("/var/lib/forensics/3_b.json", "b"); ("/var/lib/forensics/4_c.json", "c")]%string
    [].

(** A monitor whose queue of capacity 2 is full. *)
Definition full_monitor : Runtime.Monitor :=
  Runtime.set_EventChan
    {| Runtime.buf := [critical_event; shadow_event]; Runtime.cap := 2;
       Runtime.closed := false |}
    (Runtime.NewMonitor config).

(** A shutdown in which the queue is closed while the one worker is
    still in its loop: the worker starts, the ingestion task connects,
    [Stop] cancels, the ingestion task and the collector see the
    cancellation and exit, [wg.Wait()] returns, [Stop] closes the queue. *)
Definition trace0 : Runtime.System := Runtime.started config.

Definition trace1 : Runtime.System :=
  Runtime.with_workers (<[0%nat := Runtime.WLoop]> (Runtime.workers trace0))
    (Runtime.with_mon
       (Runtime.mprint (Runtime.WorkerStarted (Z.of_nat 0)) (Runtime.mon trace0)) trace0).

Definition trace2 : Runtime.System :=
  Runtime.with_ingest Runtime.AtSelect
    (Runtime.with_mon (Runtime.mprint Runtime.ConnectedToFalco (Runtime.mon trace1)) trace1).

Definition trace3 : Runtime.System :=
  Runtime.with_stop Runtime.Waiting
    (Runtime.with_mon (Runtime.Stop_cancel (Runtime.mon trace2)) trace2).

Definition trace4 : Runtime.System :=
  Runtime.with_ingest Runtime.IngestExited
    (Runtime.with_mon (Runtime.wg_Done (Runtime.mon trace3)) trace3).

Definition trace5 : Runtime.System :=
  Runtime.with_collector Runtime.Exited
    (Runtime.with_mon (Runtime.wg_Done (Runtime.mon trace4)) trace4).

Definition trace6 : Runtime.System := Runtime.with_stop Runtime.BeforeClose trace5.

Definition closed_early : Runtime.System :=
  Runtime.with_stop Runtime.Stopped
    (Runtime.with_mon (snd (Runtime.Stop_close (Runtime.mon trace6))) trace6).

(** The three events of the end-to-end scenario, with the clock readings
    taken while each is processed. *)
Definition three_events : list (Time * Runtime.SecurityEvent) :=
  [(1, critical_event); (2, shadow_event); (3, benign_event)].

(** A stand-in for [os] and [Time.AddDate] on the stand-in file system:
    a file's modification time is the length of its content, removal
    always succeeds, and a day lasts 86400 seconds. *)
Definition vault_os : @Forensics.OS vault_lib :=
  @Forensics.Build_OS vault_lib
    (fun t _ _ days => t + days * 86400000000000)
    (fun d path =>
       match read_file d path with
       | (data, None) => (Z.of_nat (String.length data), None)
       | (_, Some err) => (0, Some err)
       end)
    (fun d path => (filter (fun e => e.1 <> path) d, None)).

(** Kubernetes resources for the static checks. *)
Definition pod (containers : list Static.yvalue) : Static.K8sResource :=
  {| Static.APIVersion := "v1"; Static.Kind := "Pod";
     Static.Metadata := {[ "name"%string := Static.YString "web" ]};
     Static.Spec := {[ "containers"%string := Static.YSeq containers ]} |}.

Definition privileged_container : Static.yvalue :=
  Static.YMap {[ "name"%string := Static.YString "app";
                 "securityContext"%string :=
                   Static.YMap {[ "privileged"%string := Static.YBool true ]} ]}.

Definition bare_container : Static.yvalue :=
  Static.YMap {[ "name"%string := Static.YString "sidecar" ]}.

Definition limited_container : Static.yvalue :=
  Static.YMap {[ "name"%string := Static.YString "app";
                 "resources"%string :=
                   Static.YMap {[ "limits"%string :=
                     Static.YMap {[ "cpu"%string := Static.YString "500m";
                                    "memory"%string := Static.YString "128Mi" ]} ]} ]}.

Definition cronjob : Static.K8sResource :=
  {| Static.APIVersion := "batch/v1"; Static.Kind := "CronJob";
     Static.Metadata := {[ "name"%string := Static.YString "nightly" ]};
     Static.Spec := {[ "containers"%string := Static.YSeq [privileged_container] ]} |}.

End Fixtures.

(** ** Vocabulary of the specification *)

(** [max] on scores, as the comparison [if b > a { a = b }] computes it. *)
Definition fmax (a b : float) : float := if (a <? b)%float then b else a.

(** The rule-based score of an event. *)
Definition rule_score (event : Runtime.SecurityEvent) : float :=
  if Runtime.isKnownThreat event then 0.95%float else 0%float.

(** The heuristic score as the specification words it: a sum of one
    fixed weight per indicator that is present. *)
Definition indicator (present : bool) (weight : float) : float :=
  if present then weight else 0%float.

Definition weighted_sum (f : Runtime.BehavioralFeatures) : float :=
  (0 + indicator (0 <? Z.of_nat (length (Runtime.SensitiveFiles f)))%Z 0.3
     + indicator (10 <? Runtime.NetworkConnCount f)%Z 0.2
     + indicator (50 <? Runtime.FileAccessCount f)%Z 0.2
     + indicator (bool_decide (Runtime.ProcessName f ∈ Runtime.suspiciousProcesses)) 0.4)%float.

(** The actor of an event: its "proc.name" field, when that is a string. *)
Definition actor (event : Runtime.SecurityEvent) : option string :=
  match Runtime.Fields event with
  | Some fields => lookup_string fields "proc.name"
  | None => None
  end.

(** [features] with its frequency counter replaced. *)
Definition set_ProcessFrequency (n : Z) (f : Runtime.BehavioralFeatures)
  : Runtime.BehavioralFeatures :=
  {| Runtime.ProcessName := Runtime.ProcessName f;
     Runtime.ProcessFrequency := n;
     Runtime.SyscallCount := Runtime.SyscallCount f;
     Runtime.FileAccessCount := Runtime.FileAccessCount f;
     Runtime.NetworkConnCount := Runtime.NetworkConnCount f;
     Runtime.SensitiveFiles := Runtime.SensitiveFiles f;
     Runtime.CommandLine := Runtime.CommandLine f;
     Runtime.ParentProcess := Runtime.ParentProcess f;
     Runtime.UserID := Runtime.UserID f;
     Runtime.TimeWindow := Runtime.TimeWindow f;
     Runtime.ContainerID := Runtime.ContainerID f;
     Runtime.Namespace := Runtime.Namespace f |}.

(** The record a file of the store holds, if the file can be read and
    decodes. *)
Definition decoded `{Forensics.Lib} (d : Forensics.FS) (file : string)
  : option Forensics.ForensicRecord :=
  match Forensics.ioutil_ReadFile d file with
  | (_, Some _) => None
  | (data, None) =>
      match Forensics.json_Unmarshal data with
      | (_, Some _) => None
      | (record, None) => Some record
      end
  end.

Definition stored_records `{Forensics.Lib} (d : Forensics.FS) (files : list string)
  : list Forensics.ForensicRecord :=
  omap (decoded d) files.

(** Every integer variable a monitor and its processor hold. *)
Definition monitor_ints (m : Runtime.Monitor) : list Z :=
  [ Runtime.TotalEvents (Runtime.Metrics (Runtime.Processor m));
    Runtime.ProcessedEvents (Runtime.Metrics (Runtime.Processor m));
    Runtime.AnomaliesDetected (Runtime.Metrics (Runtime.Processor m));
    Runtime.ErrorCount (Runtime.Metrics (Runtime.Processor m));
    Runtime.Workers (Runtime.Processor m);
    Runtime.wg m ] ++
  (map_to_list (Runtime.processFrequency (Runtime.Processor m))).*2.

(** Some integer variable of the monitor went up by one. *)
Definition counter_incremented (m m' : Runtime.Monitor) : Prop :=
  exists (i : nat) (x : Z),
    monitor_ints m !! i = Some x /\ monitor_ints m' !! i = Some (x + 1).

(** The worker's counters add up, and lie in the range of [int64]. *)
Definition balanced (m : Runtime.ProcessorMetrics) : Prop :=
  Runtime.TotalEvents m = Runtime.ProcessedEvents m + Runtime.ErrorCount m.

Definition metrics_le (m m' : Runtime.ProcessorMetrics) : Prop :=
  Runtime.TotalEvents m <= Runtime.TotalEvents m' /\
  Runtime.ProcessedEvents m <= Runtime.ProcessedEvents m' /\
  Runtime.AnomaliesDetected m <= Runtime.AnomaliesDetected m' /\
  Runtime.ErrorCount m <= Runtime.ErrorCount m'.

(** Room for [n] more events before a counter would wrap. *)
Definition headroom (n : Z) (m : Runtime.ProcessorMetrics) : Prop :=
  0 <= Runtime.ProcessedEvents m /\ 0 <= Runtime.ErrorCount m /\
  0 <= Runtime.AnomaliesDetected m /\
  Runtime.TotalEvents m + n <= max_int64 /\
  Runtime.AnomaliesDetected m + 2 * n <= max_int64.

(** A sequential schedule of the pipeline: the ingestion loop enqueues
    every event while no worker is parked, then one worker receives and
    handles whatever the queue holds, oldest first; [clock i] is the
    reading of [time.Now()] while the [i]-th event is processed. *)
Definition enqueue_all (events : list Runtime.SecurityEvent) (m : Runtime.Monitor)
  : Runtime.Monitor :=
  fold_left (fun m event => snd (Runtime.enqueue false event m)) events m.

Definition drain `{Runtime.Lib} (id : Z) (clock : nat -> Time) (m : Runtime.Monitor)
  : Runtime.Monitor :=
  Runtime.set_Processor
    (Runtime.worker_run id
       (imap (fun i event => (clock i, event)) (Runtime.buf (Runtime.EventChan m)))
       (Runtime.Processor m))
    (Runtime.dequeue [] m).

(** How often [storeForensicData] was called, read off standard output. *)
Definition is_anomaly_report (l : Runtime.line) : bool :=
  match l with Runtime.AnomalyDetected _ _ _ => true | _ => false end.

Definition anomaly_reports (out : list Runtime.line) : Z :=
  Z.of_nat (length (List.filter is_anomaly_report out)).

(** The "fd.name" field of an event, when that is a string. *)
Definition fd_name (event : Runtime.SecurityEvent) : option string :=
  match Runtime.Fields event with
  | Some fields => lookup_string fields "fd.name"
  | None => None
  end.

(** The goroutines registered with the monitor's [WaitGroup] that have
    not returned yet. *)
Definition alive_ingest (p : Runtime.ingest_pc) : Z :=
  match p with Runtime.IngestExited => 0 | _ => 1 end.

Definition alive_task (t : Runtime.task) : Z :=
  match t with Runtime.Exited => 0 | Runtime.Running => 1 end.

(** What holds in every state of a started monitor. *)
Definition shutdown_inv (s : Runtime.System) : Prop :=
  Runtime.wg (Runtime.mon s) =
    alive_ingest (Runtime.ingest s) + alive_task (Runtime.collector s) /\
  (Runtime.ctx_done (Runtime.mon s) = true <-> Runtime.stop s <> Runtime.BeforeCancel) /\
  (Runtime.stop s = Runtime.BeforeClose \/ Runtime.stop s = Runtime.Stopped ->
   Runtime.wg (Runtime.mon s) = 0) /\
  (Runtime.closed (Runtime.EventChan (Runtime.mon s)) = true <->
   Runtime.stop s = Runtime.Stopped).

(** [sub] occurs in [s]. *)
Definition is_substring (sub s : string) : Prop :=
  exists pre post : string, s = (pre +:+ sub +:+ post)%string.

(** The frequency table after [Extract] has run on each event in turn. *)
Definition extract_all `{Runtime.Lib} (events : list Runtime.SecurityEvent)
  (t : gmap string Z) : gmap string Z :=
  fold_left (fun t event => snd (Runtime.Extract t event)) events t.

(** How many of the events are of actor [proc]. *)
Definition count_actor (proc : string) (events : list Runtime.SecurityEvent) : Z :=
  Z.of_nat (length (filter (fun event => actor event = Some proc) events)).

(** The events the rule-based detection flags, in order. *)
Definition known_threats (events : list (Time * Runtime.SecurityEvent))
  : list (Time * Runtime.SecurityEvent) :=
  List.filter (fun ne => Runtime.isKnownThreat (snd ne)) events.

(** The line [storeForensicData] prints for a flagged event in the
    pipeline. *)
Definition report_line (ne : Time * Runtime.SecurityEvent) : Runtime.line :=
  Runtime.AnomalyDetected 0.95 (Runtime.Rule (snd ne))
    (Runtime.CI_Name (Runtime.Container (snd ne))).

(** The warnings the ingestion loop has printed about dropped events. *)
Definition is_drop_warning (l : Runtime.line) : bool :=
  match l with Runtime.ChannelFullWarning => true | _ => false end.

Definition drop_warnings (out : list Runtime.line) : nat :=
  length (List.filter is_drop_warning out).

(** The queue never holds more than its capacity, or one event when a
    parked receiver was handed an event directly. *)
Definition queue_inv (cfg : Runtime.MonitorConfig) (s : Runtime.System) : Prop :=
  Runtime.cap (Runtime.EventChan (Runtime.mon s)) = Runtime.BufferSize cfg /\
  Z.of_nat (length (Runtime.buf (Runtime.EventChan (Runtime.mon s))))
    <= Z.max (Runtime.BufferSize cfg) 1.


(** The record [StoreRecord] goes on with once it has filled in a
    missing identifier and a missing timestamp, and the path it writes
    that record to. *)
Definition with_defaults (now_id now_ts : Time) (record : Forensics.ForensicRecord)
  : Forensics.ForensicRecord :=
  let record :=
    if String.eqb (Forensics.ID record) ""
    then Forensics.set_ID (Forensics.generateID now_id) record else record in
  if Time_IsZero (Forensics.Timestamp record)
  then Forensics.set_Timestamp now_ts record else record.

Definition record_path `{Forensics.Lib} (v : Forensics.Vault)
  (record : Forensics.ForensicRecord) : string :=
  Forensics.filepath_Join (Forensics.StoragePath (Forensics.Config v))
    (Forensics.Time_Format (Forensics.Timestamp record) "20060102_150405" +:+ "_" +:+
     Forensics.ID record +:+ ".json")%string.

(** The cutoff [CleanupOldRecords] computes. *)
Definition cleanup_cutoff `{Forensics.OS} (v : Forensics.Vault) (now : Time) : Time :=
  Forensics.Time_AddDate now 0 0
    (wrap64 (- Forensics.RetentionDays (Forensics.Config v))).


(** A resource with one more key in its spec. *)
Definition with_spec_key (key : string) (v : Static.yvalue) (resource : Static.K8sResource)
  : Static.K8sResource :=
  {| Static.APIVersion := Static.APIVersion resource;
     Static.Kind := Static.Kind resource;
     Static.Metadata := Static.Metadata resource;
     Static.Spec := <[key := v]> (Static.Spec resource) |}.

(** A container that declares both a CPU and a memory limit. *)
Definition has_limits (container : gmap string Static.yvalue) : Prop :=
  exists resources limits,
    container !! "resources"%string = Some (Static.YMap resources) /\
    resources !! "limits"%string = Some (Static.YMap limits) /\
    Static.is_nil (limits !! "cpu"%string) = false /\
    Static.is_nil (limits !! "memory"%string) = false.

(** A container whose security context asks for privileged mode. *)
Definition is_privileged (container : gmap string Static.yvalue) : Prop :=
  exists securityContext,
    container !! "securityContext"%string = Some (Static.YMap securityContext) /\
    securityContext !! "privileged"%string = Some (Static.YBool true).

(** ** The definitions on concrete inputs *)

Example contains_inside : contains "/host/etc/shadow.bak" "/etc/shadow" = true.
Proof. reflexivity. Qed.

Example contains_absent : contains "/etc/hostname" "/etc/shadow" = false.
Proof. reflexivity. Qed.

(** Unlike [strings.Contains], this [contains] does not find the empty
    string inside a non-empty one. *)
Example contains_empty_needle : contains "abc" "" = false /\ contains "" "" = true.
Proof. split; reflexivity. Qed.

Example isSensitiveFile_examples :
  Runtime.isSensitiveFile "/etc/shadow" = true /\
  Runtime.isSensitiveFile "/var/run/secrets/kubernetes.io/serviceaccount/token" = true /\
  Runtime.isSensitiveFile "/tmp/report.txt" = false.
Proof. repeat split; reflexivity. Qed.

Example Extract_shadow_event :
  let f := fst (@Runtime.Extract Fixtures.runtime_lib ∅ Fixtures.shadow_event) in
  Runtime.SensitiveFiles f = ["/etc/shadow"%string] /\
  Runtime.FileAccessCount f = 1 /\ Runtime.NetworkConnCount f = 0 /\
  Runtime.ProcessFrequency f = 0 /\
  Runtime.getAIRiskScore f = 0.3%float.
Proof. vm_compute. repeat split; reflexivity. Qed.

Example send_nowait_examples :
  Runtime.send_nowait false Fixtures.benign_event (Runtime.make_chan 1) =
    Runtime.Sent {| Runtime.buf := [Fixtures.benign_event]; Runtime.cap := 1;
                    Runtime.closed := false |} /\
  Runtime.send_nowait false Fixtures.benign_event
    (Runtime.EventChan Fixtures.full_monitor) = Runtime.WouldBlock /\
  Runtime.send_nowait false Fixtures.benign_event (Runtime.make_chan 0) =
    Runtime.WouldBlock.
Proof. repeat split; reflexivity. Qed.

Example StoreRecord_accepts_critical :
  @Forensics.StoreRecord Fixtures.vault_lib Fixtures.vault 5 6 Fixtures.critical_record
     (@Forensics.Build_World Fixtures.vault_lib [] []) =
  (None,
   @Forensics.Build_World Fixtures.vault_lib
     [("/var/lib/forensics/100_r1.json", "r1")]%string
     [Forensics.StoredRecord "r1" "critical" 0.1]).
Proof. vm_compute. reflexivity. Qed.

(** ** Properties of the risk scorer *)

Section RiskScorer.
Context `{L : Runtime.Lib}.
Import Runtime.

Lemma isKnownThreat_spec event :
  isKnownThreat event = true <->
  Priority event = "Critical"%string \/ Priority event = "Emergency"%string \/
  Rule event ∈ knownThreats.
Proof.
  unfold isKnownThreat.
  destruct (String.eqb_spec (Priority event) "Critical");
    [ simpl; tauto |].
  destruct (String.eqb_spec (Priority event) "Emergency");
    [ simpl; tauto |].
  cbn [orb]. rewrite existsb_exists. split.
  - intros (x & Hin & Heq). apply String.eqb_eq in Heq. subst x.
    right; right. by apply list_elem_of_In.
  - intros [? | [? | Hin]]; try done.
    exists (Rule event). split; [ by apply list_elem_of_In | apply String.eqb_refl ].
Qed.

Lemma suspicious_spec name :
  existsb (fun proc => String.eqb name proc) suspiciousProcesses =
  bool_decide (name ∈ suspiciousProcesses).
Proof.
  apply eq_true_iff_eq. rewrite existsb_exists, bool_decide_eq_true. split.
  - intros (x & Hin & Heq). apply String.eqb_eq in Heq. subst x.
    by apply list_elem_of_In.
  - intros Hin. exists name. split; [ by apply list_elem_of_In | apply String.eqb_refl ].
Qed.

(** The score and the flag [processEvent] leaves in [processed]. *)
Lemma processEvent_verdict now event ep :
  let p := snd (fst (processEvent now event ep)) in
  Original p = event /\
  Features p = fst (Extract (processFrequency ep) event) /\
  RiskScore p = fmax (rule_score event) (getAIRiskScore (Features p)) /\
  Anomaly p = isKnownThreat event || (0.75 <? getAIRiskScore (Features p))%float.
Proof.
  unfold processEvent, rule_score, fmax.
  destruct (Extract (processFrequency ep) event) as [features t1]. simpl.
  destruct (isKnownThreat event); simpl.
  - destruct (PrimFloat.ltb 0.95 (getAIRiskScore features)) eqn:E1; simpl;
      destruct (PrimFloat.ltb 0.75 (getAIRiskScore features)) eqn:E2; simpl;
      rewrite ?E1, ?E2; done.
  - destruct (PrimFloat.ltb 0 (getAIRiskScore features)) eqn:E1; simpl;
      destruct (PrimFloat.ltb 0.75 (getAIRiskScore features)) eqn:E2; simpl;
      rewrite ?E1, ?E2; done.
Qed.

(** Case analysis on the four indicators of the heuristic score. *)
Ltac score_cases f :=
  unfold getAIRiskScore, weighted_sum, indicator;
  try rewrite suspicious_spec;
  destruct (0 <? Z.of_nat (length (SensitiveFiles f)));
  destruct (10 <? NetworkConnCount f);
  destruct (50 <? FileAccessCount f);
  destruct (bool_decide (ProcessName f ∈ suspiciousProcesses)).

Lemma getAIRiskScore_weighted_sum f : getAIRiskScore f = weighted_sum f.
Proof. score_cases f; vm_compute; reflexivity. Qed.

Lemma fmax_known_threat f :
  (0.95 <=? fmax 0.95 (getAIRiskScore f))%float = true.
Proof. unfold fmax. score_cases f; vm_compute; reflexivity. Qed.

(** C1. Every event whose priority is "Critical" or "Emergency", or whose
    rule name is one of the denylisted rule names, is processed into a
    verdict with [Anomaly = true] and [RiskScore >= 0.95]. *)
Theorem C1_known_threat_verdict now event ep :
  Priority event = "Critical"%string \/ Priority event = "Emergency"%string \/
  Rule event ∈ knownThreats ->
  let p := snd (fst (processEvent now event ep)) in
  Anomaly p = true /\ (0.95 <=? RiskScore p)%float = true.
Proof.
  intros Hthreat p. apply isKnownThreat_spec in Hthreat.
  destruct (processEvent_verdict now event ep) as (_ & _ & Hscore & Hflag).
  fold p in Hscore, Hflag. rewrite Hflag, Hscore. unfold rule_score.
  rewrite Hthreat. split; [ done | apply fmax_known_threat ].
Qed.

(** C2. The final risk score is the maximum of the rule-based score and
    the heuristic score; the heuristic score is the plain sum of the fixed
    weights of the indicators present (sensitive files 0.3, more than 10
    network connections 0.2, more than 50 file accesses 0.2, suspicious
    process name 0.4, the largest), which is not clamped and can exceed 1;
    and a denylisted rule whose heuristic score is below 0.95 scores
    exactly 0.95. *)
Theorem C2_composite_score now event ep :
  let p := snd (fst (processEvent now event ep)) in
  RiskScore p = fmax (rule_score event) (getAIRiskScore (Features p)) /\
  getAIRiskScore (Features p) = weighted_sum (Features p) /\
  ((0.3 <? 0.4)%float = true /\ (0.2 <? 0.4)%float = true) /\
  (exists f, (1 <? getAIRiskScore f)%float = true) /\
  (Rule event ∈ knownThreats ->
   (getAIRiskScore (Features p) <? 0.95)%float = true ->
   RiskScore p = 0.95%float).
Proof.
  intros p.
  destruct (processEvent_verdict now event ep) as (_ & _ & Hscore & _).
  fold p in Hscore. repeat split.
  - exact Hscore.
  - apply getAIRiskScore_weighted_sum.
  - exists {| ProcessName := "nc"; ProcessFrequency := 1; SyscallCount := ∅;
              FileAccessCount := 51; NetworkConnCount := 11;
              SensitiveFiles := ["/etc/shadow"%string];
              CommandLine := ""; ParentProcess := ""; UserID := "";
              TimeWindow := ""; ContainerID := ""; Namespace := "" |}.
    vm_compute. reflexivity.
  - intros Hrule Hlow. rewrite Hscore. unfold rule_score.
    assert (isKnownThreat event = true) as ->
      by (apply isKnownThreat_spec; auto).
    unfold fmax. revert Hlow. generalize (Features p). intros f.
    score_cases f; vm_compute; congruence.
Qed.

End RiskScorer.

(** A "Critical" event on a fresh processor. *)
Lemma C1_known_threat_verdict_witness :
  Runtime.Priority Fixtures.critical_event = "Critical"%string /\
  let p := snd (fst (@Runtime.processEvent Fixtures.runtime_lib 0
                       Fixtures.critical_event (Runtime.NewEventProcessor 1))) in
  Runtime.Anomaly p = true /\ (0.95 <=? Runtime.RiskScore p)%float = true.
Proof.
  split; [ reflexivity |].
  apply (@C1_known_threat_verdict Fixtures.runtime_lib 0 Fixtures.critical_event
           (Runtime.NewEventProcessor 1)).
  left. reflexivity.
Defined.

(** A denylisted rule fired by [curl]: heuristic 0.4, final score 0.95. *)
Lemma C2_composite_score_witness :
  let p := snd (fst (@Runtime.processEvent Fixtures.runtime_lib 0
                       Fixtures.shell_by_curl (Runtime.NewEventProcessor 1))) in
  Runtime.ProcessName (Runtime.Features p) = "curl"%string /\
  Runtime.getAIRiskScore (Runtime.Features p) = 0.4%float /\
  Runtime.RiskScore p = 0.95%float.
Proof.
  split; [ reflexivity |]. split; [ vm_compute; reflexivity |].
  apply (@C2_composite_score Fixtures.runtime_lib 0 Fixtures.shell_by_curl
           (Runtime.NewEventProcessor 1)).
  - apply list_elem_of_In. simpl. left. reflexivity.
  - vm_compute. reflexivity.
Defined.

(** ** Properties of the forensic vault *)

Section Vault.
Context `{L : Forensics.Lib}.
Import Forensics.

(** C3. The retention policy keeps a record exactly when its severity is
    "critical" or "high", or its severity is "medium" and its risk score
    is strictly above 0.7, or its incident type is non-empty and not
    "false-positive". So a "critical" record is kept whatever its score
    (0.1 included), and a "low" record, even at score 0.99, is kept only
    through its incident type. *)
Theorem C3_retention_rule rp record :
  (ShouldRetain rp record = true <->
   (Severity record = "critical"%string \/ Severity record = "high"%string) \/
   (Severity record = "medium"%string /\ (0.7 <? RiskScore record)%float = true) \/
   (IncidentType record <> ""%string /\
    IncidentType record <> "false-positive"%string)) /\
  (Severity record = "critical"%string -> ShouldRetain rp record = true) /\
  (Severity record = "low"%string ->
   (ShouldRetain rp record = true <->
    IncidentType record <> ""%string /\
    IncidentType record <> "false-positive"%string)).
Proof.
  assert (ShouldRetain rp record = true <->
   (Severity record = "critical"%string \/ Severity record = "high"%string) \/
   (Severity record = "medium"%string /\ (0.7 <? RiskScore record)%float = true) \/
   (IncidentType record <> ""%string /\
    IncidentType record <> "false-positive"%string)) as Hiff.
  { unfold ShouldRetain.
    destruct (String.eqb_spec (Severity record) "critical"); [ simpl; tauto |].
    destruct (String.eqb_spec (Severity record) "high"); [ simpl; tauto |].
    destruct (String.eqb_spec (Severity record) "medium"); simpl.
    - destruct (PrimFloat.ltb 0.7 (RiskScore record)); [ tauto |].
      destruct (String.eqb_spec (IncidentType record) ""); simpl;
        [ intuition congruence |].
      destruct (String.eqb_spec (IncidentType record) "false-positive"); simpl;
        intuition congruence.
    - destruct (String.eqb_spec (IncidentType record) ""); simpl;
        [ intuition congruence |].
      destruct (String.eqb_spec (IncidentType record) "false-positive"); simpl;
        intuition congruence. }
  split; [ exact Hiff |]. split.
  - intros Hsev. apply Hiff. auto.
  - intros Hsev. rewrite Hiff. rewrite Hsev. intuition congruence.
Qed.

Lemma ShouldRetain_set_ID rp id record :
  ShouldRetain rp (set_ID id record) = ShouldRetain rp record.
Proof. reflexivity. Qed.

Lemma ShouldRetain_set_Timestamp rp t record :
  ShouldRetain rp (set_Timestamp t record) = ShouldRetain rp record.
Proof. reflexivity. Qed.

(** A record the policy drops is still dropped once [StoreRecord] has
    filled in its identifier and timestamp. *)
Lemma ShouldRetain_defaults rp now_id now_ts record :
  ShouldRetain rp
    (let record := if String.eqb (ID record) "" then set_ID (generateID now_id) record
                   else record in
     if Time_IsZero (Timestamp record) then set_Timestamp now_ts record else record) =
  ShouldRetain rp record.
Proof.
  cbv zeta. destruct (String.eqb (ID record) "");
    destruct (Time_IsZero _); reflexivity.
Qed.

(** C4 (amended). For a record the retention policy does not accept,
    [StoreRecord] returns a non-nil error, the one whose text is "record
    does not meet retention criteria" -- an ordinary error value, told
    apart from the marshal and write faults only by its text -- and
    leaves the world as it was: no file is written, nothing is printed. *)
Theorem C4_rejected_store (v : Vault) now_id now_ts record (w : World) :
  ShouldRetain (Policy v) record = false ->
  StoreRecord v now_id now_ts record w =
    (Some "record does not meet retention criteria"%string, w) /\
  is_error (fst (StoreRecord v now_id now_ts record w)) = true /\
  (forall err : string,
     "record does not meet retention criteria"%string <>
       ("failed to marshal record: " +:+ err)%string /\
     "record does not meet retention criteria"%string <>
       ("failed to write record: " +:+ err)%string).
Proof.
  intros Hdrop.
  assert (StoreRecord v now_id now_ts record w =
            (Some "record does not meet retention criteria"%string, w)) as Heq.
  { unfold StoreRecord.
    pose proof (ShouldRetain_defaults (Policy v) now_id now_ts record) as Hd.
    cbv zeta in Hd. rewrite Hd, Hdrop. reflexivity. }
  split; [ exact Heq |]. split; [ by rewrite Heq |].
  intros err. split; discriminate.
Qed.

Lemma omap_cons_eq {A B} (f : A -> option B) (x : A) (l : list A) :
  omap f (x :: l) = match f x with Some y => y :: omap f l | None => omap f l end.
Proof. reflexivity. Qed.

(** The loop appends, in listing order, the decodable records inside the
    open interval. *)
Lemma ListRecords_loop_spec d from to files records :
  ListRecords_loop d from to files records =
  records ++ filter (fun r => from < Timestamp r /\ Timestamp r < to)
                    (stored_records d files).
Proof.
  revert records. induction files as [| file files IH]; intros records; simpl.
  - by rewrite app_nil_r.
  - unfold stored_records in *. simpl. unfold decoded at 1.
    destruct (ioutil_ReadFile d file) as [data [e |]]; [ apply IH |].
    destruct (json_Unmarshal data) as [r [e |]]; [ apply IH |].
    simpl. rewrite filter_cons. unfold Time_After, Time_Before.
    destruct (decide (from < Timestamp r /\ Timestamp r < to)) as [[H1 H2] | Hn].
    + apply Z.ltb_lt in H1 as ->. apply Z.ltb_lt in H2 as ->. simpl.
      rewrite IH. by rewrite <- app_assoc.
    + destruct (from <? Timestamp r) eqn:E1; simpl; [| apply IH ].
      destruct (Timestamp r <? to) eqn:E2; simpl; [| apply IH ].
      apply Z.ltb_lt in E1, E2. tauto.
Qed.

(** C8. Given the listing of the store's [*.json] files, [ListRecords]
    never fails and returns exactly the records of the readable, decodable
    files (in listing order) whose timestamp lies strictly between [from]
    and [to]; a file that cannot be read or decoded contributes nothing,
    and a record stamped exactly [from] or [to] is excluded. *)
Theorem C8_list_open_interval (v : Vault) from to (w : World) files :
  filepath_Glob (disk w) (filepath_Join (StoragePath (Config v)) "*.json") =
    (files, None) ->
  ListRecords v from to w =
    (filter (fun r => from < Timestamp r /\ Timestamp r < to)
            (stored_records (disk w) files), None) /\
  (forall r, r ∈ fst (ListRecords v from to w) <->
             r ∈ stored_records (disk w) files /\
             from < Timestamp r /\ Timestamp r < to) /\
  (forall r, r ∈ fst (ListRecords v from to w) ->
             Timestamp r <> from /\ Timestamp r <> to) /\
  (forall file, file ∈ files -> decoded (disk w) file = None ->
     ListRecords v from to w =
       (filter (fun r => from < Timestamp r /\ Timestamp r < to)
               (stored_records (disk w) (filter (fun f => f <> file) files)), None)).
Proof.
  intros Hglob.
  assert (ListRecords v from to w =
    (filter (fun r => from < Timestamp r /\ Timestamp r < to)
            (stored_records (disk w) files), None)) as Heq.
  { unfold ListRecords. rewrite Hglob. by rewrite ListRecords_loop_spec. }
  split; [ exact Heq |]. rewrite Heq. simpl. split; [| split ].
  - intros r. rewrite list_elem_of_filter. tauto.
  - intros r Hin. apply list_elem_of_filter in Hin. lia.
  - intros file _ Hbad. do 2 f_equal. unfold stored_records.
    clear Hglob Heq. induction files as [| f files IH]; [ done |].
    rewrite filter_cons. destruct (decide (f <> file)) as [Hne | Heq'].
    + rewrite !omap_cons_eq. by rewrite IH.
    + assert (f = file) as -> by (destruct (decide (f = file)); tauto).
      rewrite omap_cons_eq. by rewrite Hbad.
Qed.

End Vault.

(** The "critical" record scored 0.1 is kept. *)
Lemma C3_retention_rule_witness :
  Forensics.Severity Fixtures.critical_record = "critical"%string /\
  Forensics.RiskScore Fixtures.critical_record = 0.1%float /\
  Forensics.ShouldRetain (Forensics.Policy Fixtures.vault) Fixtures.critical_record = true.
Proof.
  split; [ reflexivity |]. split; [ reflexivity |].
  apply (proj1 (proj2 (C3_retention_rule (Forensics.Policy Fixtures.vault)
                                          Fixtures.critical_record))).
  reflexivity.
Defined.

(** The "low" record scored 0.99, without incident type, is turned away. *)
Lemma C4_rejected_store_witness :
  Forensics.ShouldRetain (Forensics.Policy Fixtures.vault) Fixtures.low_record = false /\
  @Forensics.StoreRecord Fixtures.vault_lib Fixtures.vault 5 6 Fixtures.low_record
     Fixtures.four_files =
    (Some "record does not meet retention criteria"%string, Fixtures.four_files).
Proof.
  split; [ reflexivity |].
  apply (@C4_rejected_store Fixtures.vault_lib Fixtures.vault 5 6 Fixtures.low_record
           Fixtures.four_files).
  reflexivity.
Defined.

(** C4 as stated fails: the rejection of a "low" record scored 0.99 comes
    back as a non-nil [error], the same kind of value as a fault. *)
Lemma C4_rejection_is_an_error :
  ~ (Forensics.ShouldRetain (Forensics.Policy Fixtures.vault) Fixtures.low_record = false ->
     is_error (fst (@Forensics.StoreRecord Fixtures.vault_lib Fixtures.vault 5 6
                      Fixtures.low_record Fixtures.four_files)) = false /\
     snd (@Forensics.StoreRecord Fixtures.vault_lib Fixtures.vault 5 6
            Fixtures.low_record Fixtures.four_files) = Fixtures.four_files).
Proof.
  intros Hclaim. destruct (Hclaim eq_refl) as [Hfault _].
  vm_compute in Hfault. discriminate Hfault.
Qed.

Example ListRecords_four_files :
  @Forensics.ListRecords Fixtures.vault_lib Fixtures.vault 100 200 Fixtures.four_files =
  ([Fixtures.inside], None).
Proof. vm_compute. reflexivity. Qed.

(** Four files, one corrupt, records stamped 100, 150 and 200, queried over (100, 200). *)
Lemma C8_list_open_interval_witness :
  @Forensics.filepath_Glob Fixtures.vault_lib (Forensics.disk Fixtures.four_files)
     (@Forensics.filepath_Join Fixtures.vault_lib
        (Forensics.StoragePath (Forensics.Config Fixtures.vault)) "*.json") =
    (["/var/lib/forensics/1_a.json"; "/var/lib/forensics/2_x.json";
      "/var/lib/forensics/3_b.json"; "/var/lib/forensics/4_c.json"]%string, None) /\
  forall r,
    r ∈ fst (@Forensics.ListRecords Fixtures.vault_lib Fixtures.vault 100 200
               Fixtures.four_files) ->
    Forensics.Timestamp r <> 100 /\ Forensics.Timestamp r <> 200.
Proof.
  split; [ reflexivity |].
  apply (@C8_list_open_interval Fixtures.vault_lib Fixtures.vault 100 200
           Fixtures.four_files
           ["/var/lib/forensics/1_a.json"; "/var/lib/forensics/2_x.json";
            "/var/lib/forensics/3_b.json"; "/var/lib/forensics/4_c.json"]%string).
  reflexivity.
Defined.

(** ** Properties of the feature extractor *)

Lemma wrap64_id z : - 2 ^ 63 <= z <= max_int64 -> wrap64 z = z.
Proof.
  unfold wrap64, max_int64. intros Hz.
  rewrite Z.mod_small by lia. lia.
Qed.

Section FeatureExtractor.
Context `{L : Runtime.Lib}.
Import Runtime.

(** What [Extract] returns for an event without an actor: the table is
    not touched and the features do not depend on it. *)
Lemma Extract_no_actor t event :
  actor event = None ->
  snd (Extract t event) = t /\
  ProcessFrequency (fst (Extract t event)) = 0 /\
  forall t', fst (Extract t' event) = fst (Extract t event).
Proof.
  unfold actor, Extract. destruct (Fields event) as [fields |]; [| done ].
  intros ->. destruct (lookup_string fields "fd.name"); done.
Qed.

(** What [Extract] returns for an event with an actor. *)
Lemma Extract_actor t event proc :
  actor event = Some proc ->
  snd (Extract t event) = updateProcessFrequency proc t /\
  ProcessFrequency (fst (Extract t event)) =
    getProcessFrequency proc (updateProcessFrequency proc t) /\
  forall t', fst (Extract t' event) =
             set_ProcessFrequency
               (getProcessFrequency proc (updateProcessFrequency proc t'))
               (fst (Extract t event)).
Proof.
  unfold actor, Extract. destruct (Fields event) as [fields |]; [| done ].
  intros ->. destruct (lookup_string fields "fd.name"); done.
Qed.

Lemma getProcessFrequency_update proc t :
  getProcessFrequency proc (updateProcessFrequency proc t) =
  int_add (getProcessFrequency proc t) 1.
Proof.
  unfold getProcessFrequency, updateProcessFrequency.
  by rewrite lookup_insert_eq.
Qed.

(** C7 (amended). Two calls of [Extract] in a row on the same event, with
    no other call in between: when the event carries a string "proc.name"
    whose counter has room for two increments, the two results agree on
    every field except [ProcessFrequency], which is the old count plus one
    and then plus two; when the event carries no such field, the two
    results agree on every field, [ProcessFrequency] included (it is 0
    both times) and the table is left alone. *)
Theorem C7_extract_twice t event :
  let r1 := Extract t event in
  let r2 := Extract (snd r1) event in
  (forall proc,
     actor event = Some proc ->
     - 2 ^ 63 <= getProcessFrequency proc t <= max_int64 - 2 ->
     ProcessFrequency (fst r1) = getProcessFrequency proc t + 1 /\
     fst r2 = set_ProcessFrequency (ProcessFrequency (fst r1) + 1) (fst r1)) /\
  (actor event = None ->
   fst r2 = fst r1 /\ ProcessFrequency (fst r1) = 0 /\ snd r2 = t).
Proof.
  intros r1 r2. split.
  - intros proc Hactor Hroom.
    destruct (Extract_actor t event proc Hactor) as (Ht1 & Hf1 & Hrest).
    fold r1 in Ht1, Hf1. unfold max_int64 in Hroom.
    assert (ProcessFrequency (fst r1) = getProcessFrequency proc t + 1) as Hone.
    { rewrite Hf1, getProcessFrequency_update. unfold int_add.
      apply wrap64_id. unfold max_int64. lia. }
    split; [ exact Hone |].
    unfold r2. rewrite (Hrest (snd r1)). fold r1. f_equal.
    rewrite Ht1, !getProcessFrequency_update. unfold int_add.
    rewrite (wrap64_id (getProcessFrequency proc t + 1))
      by (unfold max_int64; lia).
    rewrite wrap64_id by (unfold max_int64; lia). lia.
  - intros Hnone.
    destruct (Extract_no_actor t event Hnone) as (Ht1 & Hf1 & Hrest).
    fold r1 in Ht1, Hf1. unfold r2. rewrite Ht1. fold r1. repeat split.
    + exact Hf1.
    + exact Ht1.
Qed.

End FeatureExtractor.

(** Two extractions of an event of actor [apt] from an empty table. *)
Lemma C7_extract_twice_witness :
  let r1 := @Runtime.Extract Fixtures.runtime_lib ∅ Fixtures.benign_event in
  let r2 := @Runtime.Extract Fixtures.runtime_lib (snd r1) Fixtures.benign_event in
  actor Fixtures.benign_event = Some "apt"%string /\
  Runtime.ProcessFrequency (fst r1) = Runtime.getProcessFrequency "apt" ∅ + 1 /\
  fst r2 = set_ProcessFrequency (Runtime.ProcessFrequency (fst r1) + 1) (fst r1).
Proof.
  intros r1 r2. split; [ reflexivity |].
  apply (proj1 (@C7_extract_twice Fixtures.runtime_lib ∅ Fixtures.benign_event)
           "apt"%string).
  - reflexivity.
  - vm_compute. split; discriminate.
Defined.

(** C7 as stated fails on an event without a "proc.name" field: the
    frequency counter is 0 after the first call and still 0 after the
    second. *)
Lemma C7_no_actor_no_increase :
  let r1 := @Runtime.Extract Fixtures.runtime_lib ∅ Fixtures.shadow_event in
  let r2 := @Runtime.Extract Fixtures.runtime_lib (snd r1) Fixtures.shadow_event in
  ~ (Runtime.ProcessFrequency (fst r2) = Runtime.ProcessFrequency (fst r1) + 1).
Proof. vm_compute. discriminate. Qed.

(** ** Properties of the worker loop *)

Section Worker.
Context `{L : Runtime.Lib}.
Import Runtime.

(** [Extract] counts at most one file access and one connection per
    event, so the heuristic score of extracted features never passes the
    0.75 threshold, let alone 0.95. *)
Lemma Extract_counts t event :
  FileAccessCount (fst (Extract t event)) <= 1 /\
  NetworkConnCount (fst (Extract t event)) <= 1.
Proof.
  unfold Extract. destruct (Fields event) as [fields |]; [| simpl; lia ].
  destruct (lookup_string fields "proc.name");
    destruct (lookup_string fields "fd.name");
    destruct (lookup_string fields "fd.sip"); simpl;
    change (int_add 0 1) with 1; lia.
Qed.

Lemma getAIRiskScore_small f :
  FileAccessCount f <= 1 -> NetworkConnCount f <= 1 ->
  (0.75 <? getAIRiskScore f)%float = false /\
  (0.95 <? getAIRiskScore f)%float = false /\
  (if (0 <? getAIRiskScore f)%float then getAIRiskScore f else 0%float) =
    getAIRiskScore f.
Proof.
  intros Hf Hn. unfold getAIRiskScore.
  assert ((10 <? NetworkConnCount f) = false) as -> by (apply Z.ltb_ge; lia).
  assert ((50 <? FileAccessCount f) = false) as -> by (apply Z.ltb_ge; lia).
  destruct (0 <? Z.of_nat (length (SensitiveFiles f)));
    destruct (existsb _ suspiciousProcesses); vm_compute; done.
Qed.

(** The whole effect of [processEvent] inside the pipeline, where the
    features are the extracted ones: it never fails, flags exactly the
    known threats, counts and reports each of them once. *)
Lemma processEvent_effect now event ep :
  processEvent now event ep =
  (None,
   {| Original := event;
      Features := fst (Extract (processFrequency ep) event);
      PE_Timestamp := now;
      RiskScore := if isKnownThreat event then 0.95%float
                   else getAIRiskScore (fst (Extract (processFrequency ep) event));
      Anomaly := isKnownThreat event |},
   if isKnownThreat event
   then {| Workers := Workers ep;
           processFrequency := snd (Extract (processFrequency ep) event);
           Metrics := add_AnomaliesDetected (Metrics ep);
           stdout := stdout ep ++
                     [AnomalyDetected 0.95 (Rule event) (CI_Name (Container event))] |}
   else {| Workers := Workers ep;
           processFrequency := snd (Extract (processFrequency ep) event);
           Metrics := Metrics ep;
           stdout := stdout ep |}).
Proof.
  unfold processEvent.
  pose proof (Extract_counts (processFrequency ep) event) as [Hf Hn].
  destruct (Extract (processFrequency ep) event) as [features t1]. simpl in *.
  destruct (getAIRiskScore_small features Hf Hn) as (H75 & H95 & H0).
  destruct (isKnownThreat event); simpl.
  - rewrite H95, H75. reflexivity.
  - rewrite H75. destruct (PrimFloat.ltb 0 (getAIRiskScore features)) eqn:E0;
      simpl; [ reflexivity |].
    simpl in H0. rewrite <- H0. reflexivity.
Qed.

Lemma worker_handle_metrics id now event ep :
  Metrics (worker_handle id now event ep) =
  add_ProcessedEvents
    ((if isKnownThreat event then add_AnomaliesDetected else fun m => m)
       (add_TotalEvents (Metrics ep))).
Proof.
  unfold worker_handle. rewrite processEvent_effect.
  destruct (isKnownThreat event); reflexivity.
Qed.

(** One event: every counter that moves moves up by one, [TotalEvents]
    and [ProcessedEvents] always do, [ErrorCount] never does. *)
Lemma worker_handle_step id now event ep n :
  balanced (Metrics ep) -> headroom n (Metrics ep) -> 1 <= n ->
  let m := Metrics ep in
  let m' := Metrics (worker_handle id now event ep) in
  balanced m' /\ headroom (n - 1) m' /\ metrics_le m m' /\
  TotalEvents m' = TotalEvents m + 1 /\
  ProcessedEvents m' = ProcessedEvents m + 1 /\
  ErrorCount m' = ErrorCount m.
Proof.
  unfold balanced, headroom, metrics_le. intros Hbal (HP & HE & HA & HT & HA2) Hn.
  rewrite worker_handle_metrics.
  destruct (Metrics ep) as [T P A E]. simpl in *. unfold max_int64 in *.
  destruct (isKnownThreat event); simpl; unfold atomic_AddInt64;
    rewrite !wrap64_id by (unfold max_int64; lia); lia.
Qed.

Lemma worker_run_metrics id events : forall ep n,
  balanced (Metrics ep) -> headroom n (Metrics ep) ->
  Z.of_nat (length events) <= n ->
  let m := Metrics ep in
  let m' := Metrics (worker_run id events ep) in
  balanced m' /\ headroom (n - Z.of_nat (length events)) m' /\ metrics_le m m' /\
  TotalEvents m' = TotalEvents m + Z.of_nat (length events) /\
  ProcessedEvents m' = ProcessedEvents m + Z.of_nat (length events) /\
  ErrorCount m' = ErrorCount m.
Proof.
  induction events as [| [now event] events IH]; intros ep n Hbal Hroom Hlen; simpl.
  - rewrite Z.sub_0_r, !Z.add_0_r. unfold metrics_le. intuition lia.
  - simpl in Hlen.
    destruct (worker_handle_step id now event ep n Hbal Hroom ltac:(lia))
      as (Hbal1 & Hroom1 & Hle1 & HT1 & HP1 & HE1).
    destruct (IH (worker_handle id now event ep) (n - 1) Hbal1 Hroom1 ltac:(lia))
      as (Hbal2 & Hroom2 & Hle2 & HT2 & HP2 & HE2).
    clear IH. unfold worker_run in *. cbn [fold_left fst snd length] in *.
    rewrite Nat2Z.inj_succ.
    replace (n - Z.succ (Z.of_nat (length events)))
      with (n - 1 - Z.of_nat (length events)) by lia.
    unfold metrics_le in *. intuition lia.
Qed.

Lemma worker_run_snoc id events now event ep :
  worker_run id (events ++ [(now, event)]) ep =
  worker_handle id now event (worker_run id events ep).
Proof. unfold worker_run. by rewrite fold_left_app. Qed.

(** C10. Along any sequence of events a worker handles one after the
    other, starting from balanced counters with room left in [int64]:
    after each event [TotalEvents = ProcessedEvents + ErrorCount]; each
    event raises [TotalEvents] by exactly one and exactly one of
    [ProcessedEvents] and [ErrorCount] by one; and no counter ever
    decreases. *)
Theorem C10_worker_counters id events ep :
  balanced (Metrics ep) ->
  headroom (Z.of_nat (length events)) (Metrics ep) ->
  forall k : nat, (k <= length events)%nat ->
    let m_k := Metrics (worker_run id (take k events) ep) in
    balanced m_k /\
    (forall j : nat, (j <= k)%nat ->
       metrics_le (Metrics (worker_run id (take j events) ep)) m_k) /\
    (forall now event, events !! k = Some (now, event) ->
       let m_next := Metrics (worker_run id (take (S k) events) ep) in
       TotalEvents m_next = TotalEvents m_k + 1 /\
       (ProcessedEvents m_next = ProcessedEvents m_k + 1 /\
        ErrorCount m_next = ErrorCount m_k \/
        ProcessedEvents m_next = ProcessedEvents m_k /\
        ErrorCount m_next = ErrorCount m_k + 1)).
Proof.
  intros Hbal Hroom k Hk m_k.
  set (n := Z.of_nat (length events)) in *.
  assert (forall j : nat, (j <= length events)%nat ->
            balanced (Metrics (worker_run id (take j events) ep)) /\
            headroom (n - Z.of_nat j) (Metrics (worker_run id (take j events) ep)))
    as Hprefix.
  { intros j Hj.
    destruct (worker_run_metrics id (take j events) ep n Hbal Hroom) as (? & ? & _).
    - rewrite length_take. lia.
    - rewrite length_take in *. by replace (j `min` length events)%nat with j in * by lia. }
  split; [ by apply Hprefix |]. split.
  - intros j Hj.
    destruct (Hprefix j ltac:(lia)) as [Hbal_j Hroom_j].
    assert (take k events = take j events ++ drop j (take k events)) as Hsplit.
    { rewrite <- (take_drop j (take k events)) at 1. f_equal.
      rewrite take_take. f_equal. lia. }
    unfold m_k. rewrite Hsplit. unfold worker_run at 2. rewrite fold_left_app.
    fold (worker_run id (take j events) ep).
    fold (worker_run id (drop j (take k events)) (worker_run id (take j events) ep)).
    apply (worker_run_metrics id (drop j (take k events)) _ (n - Z.of_nat j)
             Hbal_j Hroom_j).
    rewrite length_drop, length_take. lia.
  - intros now event Hev m_next.
    destruct (Hprefix k Hk) as [Hbal_k Hroom_k].
    assert (k < length events)%nat as Hlt by (eapply lookup_lt_Some; eauto).
    unfold m_next. rewrite (take_S_r _ _ _ Hev), worker_run_snoc.
    destruct (worker_handle_step id now event (worker_run id (take k events) ep)
                (n - Z.of_nat k) Hbal_k Hroom_k ltac:(lia))
      as (_ & _ & _ & HT & HP & HE).
    fold m_k in HT, HP, HE. split; [ exact HT | left; split; assumption ].
Qed.

Lemma worker_handle_effect id now event ep :
  worker_handle id now event ep =
  {| Workers := Workers ep;
     processFrequency := snd (Extract (processFrequency ep) event);
     Metrics := add_ProcessedEvents
                  ((if isKnownThreat event then add_AnomaliesDetected else fun m => m)
                     (add_TotalEvents (Metrics ep)));
     stdout := stdout ep ++
               (if isKnownThreat event
                then [AnomalyDetected 0.95 (Rule event) (CI_Name (Container event))]
                else []) |}.
Proof.
  unfold worker_handle. rewrite processEvent_effect.
  destruct (isKnownThreat event); simpl; [ reflexivity |].
  by rewrite app_nil_r.
Qed.

Lemma isSensitiveFile_shadow path :
  contains path "/etc/shadow" = true -> isSensitiveFile path = true.
Proof.
  intros Hc. unfold isSensitiveFile, sensitivePatterns.
  cbn [existsb]. rewrite Hc. by rewrite orb_true_r.
Qed.

(** C6 (amended). Worker count 1, queue capacity 10, three events
    enqueued and then handled in order: one with priority "Critical", one
    whose "fd.name" contains "/etc/shadow" and one more, the last two
    matching no rule-based pattern. Then [ProcessedEvents = 3],
    [TotalEvents = 3], [ErrorCount = 0] and [AnomaliesDetected = 1]: only
    the "Critical" event is flagged, and [storeForensicData] is called
    for it alone, printing one line. The "/etc/shadow" event does get the
    path listed as a sensitive file, but its verdict is not an anomaly:
    its score stays at or below 0.75. *)
Theorem C6_three_events cfg clock e1 e2 e3 path :
  BufferSize cfg = 10 -> MC_Workers cfg = 1 ->
  Priority e1 = "Critical"%string ->
  fd_name e2 = Some path -> contains path "/etc/shadow" = true ->
  isKnownThreat e2 = false ->
  isKnownThreat e3 = false ->
  let m := drain 0 clock (enqueue_all [e1; e2; e3] (NewMonitor cfg)) in
  Metrics (Processor m) =
    {| TotalEvents := 3; ProcessedEvents := 3;
       AnomaliesDetected := 1; ErrorCount := 0 |} /\
  stdout (Processor m) =
    [AnomalyDetected 0.95 (Rule e1) (CI_Name (Container e1))] /\
  anomaly_reports (stdout (Processor m)) = 1 /\
  buf (EventChan m) = [] /\
  (forall now ep,
     let p2 := snd (fst (processEvent now e2 ep)) in
     SensitiveFiles (Features p2) = [path] /\ Anomaly p2 = false /\
     (0.75 <? RiskScore p2)%float = false).
Proof.
  intros Hcap Hworkers Hcritical Hfd Hshadow Hrule2 Hrule3 m.
  assert (isKnownThreat e1 = true) as Hrule1
    by (apply isKnownThreat_spec; auto).
  assert (Processor m =
            worker_run 0 [(clock 0%nat, e1); (clock 1%nat, e2); (clock 2%nat, e3)]
              (NewEventProcessor 1) /\
          buf (EventChan m) = []) as [Hm Hbuf].
  { unfold m, drain, enqueue_all, enqueue, send_nowait, NewMonitor, make_chan.
    simpl. rewrite Hcap, Hworkers. simpl. done. }
  rewrite Hm. unfold worker_run. cbn [fold_left fst snd].
  rewrite !worker_handle_effect, Hrule1, Hrule2, Hrule3.
  cbn [Metrics stdout NewEventProcessor].
  split; [ reflexivity |]. split; [ reflexivity |]. split; [ reflexivity |].
  split; [ exact Hbuf |].
  intros now ep. rewrite processEvent_effect, Hrule2.
  cbn [Features Anomaly RiskScore snd fst].
  pose proof (Extract_counts (processFrequency ep) e2) as [Hf Hn].
  destruct (getAIRiskScore_small _ Hf Hn) as (H75 & _ & _).
  split; [| split; [ reflexivity | exact H75 ] ].
  unfold fd_name in Hfd. unfold Extract.
  destruct (Fields e2) as [fields |]; [| discriminate ].
  rewrite Hfd, (isSensitiveFile_shadow path Hshadow).
  destruct (lookup_string fields "proc.name"); reflexivity.
Qed.

End Worker.

(** Three events on a fresh processor. *)
Lemma C10_worker_counters_witness :
  balanced (Runtime.Metrics (Runtime.NewEventProcessor 1)) /\
  headroom 3 (Runtime.Metrics (Runtime.NewEventProcessor 1)) /\
  balanced (Runtime.Metrics
              (@Runtime.worker_run Fixtures.runtime_lib 0
                 (take 3 Fixtures.three_events) (Runtime.NewEventProcessor 1))).
Proof.
  assert (balanced (Runtime.Metrics (Runtime.NewEventProcessor 1))) as Hbal
    by reflexivity.
  assert (headroom 3 (Runtime.Metrics (Runtime.NewEventProcessor 1))) as Hroom
    by (unfold headroom, max_int64; simpl; lia).
  split; [ exact Hbal |]. split; [ exact Hroom |].
  apply (@C10_worker_counters Fixtures.runtime_lib 0 Fixtures.three_events
           (Runtime.NewEventProcessor 1) Hbal Hroom 3%nat).
  simpl. lia.
Defined.

Example worker_run_three_events :
  Runtime.Metrics (@Runtime.worker_run Fixtures.runtime_lib 0 Fixtures.three_events
                     (Runtime.NewEventProcessor 1)) =
  {| Runtime.TotalEvents := 3; Runtime.ProcessedEvents := 3;
     Runtime.AnomaliesDetected := 1; Runtime.ErrorCount := 0 |}.
Proof. vm_compute. reflexivity. Qed.

(** The scenario on the three fixture events. *)
Lemma C6_three_events_witness :
  let m := @drain Fixtures.runtime_lib 0 (fun i => Z.of_nat i)
             (enqueue_all [Fixtures.critical_event; Fixtures.shadow_event;
                           Fixtures.benign_event]
                (Runtime.NewMonitor Fixtures.config)) in
  fd_name Fixtures.shadow_event = Some "/etc/shadow"%string /\
  Runtime.Metrics (Runtime.Processor m) =
    {| Runtime.TotalEvents := 3; Runtime.ProcessedEvents := 3;
       Runtime.AnomaliesDetected := 1; Runtime.ErrorCount := 0 |}.
Proof.
  intros m. split; [ reflexivity |].
  apply (@C6_three_events Fixtures.runtime_lib Fixtures.config (fun i => Z.of_nat i)
           Fixtures.critical_event Fixtures.shadow_event Fixtures.benign_event
           "/etc/shadow"%string); reflexivity.
Defined.

(** C6 as stated fails: with a "Critical" event, an event reading
    "/etc/shadow" and a benign one, a single anomaly is counted and a
    single call of [storeForensicData] is made, not two. *)
Lemma C6_one_anomaly_not_two :
  let m := @drain Fixtures.runtime_lib 0 (fun i => Z.of_nat i)
             (enqueue_all [Fixtures.critical_event; Fixtures.shadow_event;
                           Fixtures.benign_event]
                (Runtime.NewMonitor Fixtures.config)) in
  ~ (anomaly_reports (Runtime.stdout (Runtime.Processor m)) = 2 /\
     Runtime.AnomaliesDetected (Runtime.Metrics (Runtime.Processor m)) = 2 /\
     Runtime.ProcessedEvents (Runtime.Metrics (Runtime.Processor m)) = 3).
Proof. vm_compute. intros (Hstored & _). discriminate Hstored. Qed.

(** ** Properties of the monitor *)

Section Backpressure.
Import Runtime.

(** The non-blocking send on a full queue on which no receiver is parked
    takes the [default] branch, whose only effect is one printed line. *)
Lemma enqueue_full event m :
  closed (EventChan m) = false ->
  cap (EventChan m) <= Z.of_nat (length (buf (EventChan m))) ->
  enqueue false event m = (Continue, mprint ChannelFullWarning m).
Proof.
  intros Hopen Hfull. unfold enqueue, send_nowait. rewrite Hopen. simpl.
  assert ((Z.of_nat (length (buf (EventChan m))) <? cap (EventChan m)) = false)
    as -> by (apply Z.ltb_ge; lia).
  reflexivity.
Qed.

Lemma same_ints_no_increment m m' :
  monitor_ints m' = monitor_ints m -> ~ counter_incremented m m'.
Proof.
  intros Heq (i & x & H1 & H2). rewrite Heq, H1 in H2.
  injection H2. lia.
Qed.

(** C5 (amended). Enqueueing into a queue that already holds as many
    events as its capacity (and is not closed) returns at once through
    the [default] branch: the events already queued stay as they are, the
    new event is dropped, and one warning line is printed. No counter
    records the drop: the metrics, [ErrorCount] included, and every other
    integer the monitor holds are unchanged. *)
Theorem C5_enqueue_on_full_queue event m :
  closed (EventChan m) = false ->
  cap (EventChan m) <= Z.of_nat (length (buf (EventChan m))) ->
  let m' := snd (enqueue false event m) in
  fst (enqueue false event m) = Continue /\
  EventChan m' = EventChan m /\
  stdout (Processor m') = stdout (Processor m) ++ [ChannelFullWarning] /\
  Metrics (Processor m') = Metrics (Processor m) /\
  monitor_ints m' = monitor_ints m /\
  ~ counter_incremented m m'.
Proof.
  intros Hopen Hfull m'. unfold m'. rewrite (enqueue_full event m Hopen Hfull).
  simpl. repeat split; try reflexivity.
  apply same_ints_no_increment. reflexivity.
Qed.

End Backpressure.

(** A third event offered to a full queue of capacity 2. *)
Lemma C5_enqueue_on_full_queue_witness :
  let m' := snd (Runtime.enqueue false Fixtures.benign_event Fixtures.full_monitor) in
  Runtime.cap (Runtime.EventChan Fixtures.full_monitor) = 2 /\
  Runtime.buf (Runtime.EventChan m') = [Fixtures.critical_event; Fixtures.shadow_event] /\
  Runtime.EventChan m' = Runtime.EventChan Fixtures.full_monitor.
Proof.
  intros m'. split; [ reflexivity |]. split; [ reflexivity |].
  apply (C5_enqueue_on_full_queue Fixtures.benign_event Fixtures.full_monitor).
  - reflexivity.
  - simpl. lia.
Defined.

(** C5 as stated fails: the send on the full queue of capacity 2 returns
    and keeps the two queued events, but no counter goes up. *)
Lemma C5_no_drop_counter :
  let m' := snd (Runtime.enqueue false Fixtures.benign_event Fixtures.full_monitor) in
  ~ (fst (Runtime.enqueue false Fixtures.benign_event Fixtures.full_monitor)
       = Runtime.Continue /\
     Runtime.buf (Runtime.EventChan m') =
       Runtime.buf (Runtime.EventChan Fixtures.full_monitor) /\
     counter_incremented Fixtures.full_monitor m').
Proof.
  intros m' (_ & _ & Hinc). revert Hinc. apply same_ints_no_increment.
  reflexivity.
Qed.

(** ** Properties of the shutdown sequence *)

Section Shutdown.
Context `{L : Runtime.Lib}.
Import Runtime.

(** The loop body of the ingestion task touches neither the context, nor
    the wait group, nor the metrics, and never closes the queue. *)
Lemma consume_body_frame scan parked m fl m' :
  consume_body scan parked m = (fl, m') ->
  ctx_done m' = ctx_done m /\ wg m' = wg m /\
  closed (EventChan m') = closed (EventChan m) /\
  Metrics (Processor m') = Metrics (Processor m).
Proof.
  unfold consume_body, enqueue, send_nowait.
  destruct scan as [data | | err]; try (intros [= <- <-]; done).
  destruct (parseEvent data) as [event [err |]]; [ intros [= <- <-]; done |].
  destruct (negb (shouldProcessEvent m event)); [ intros [= <- <-]; done |].
  destruct (closed (EventChan m)) eqn:Hc; [ intros [= <- <-]; done |].
  destruct (parked || _); intros [= <- <-]; done.
Qed.

Lemma started_inv cfg : shutdown_inv (started cfg).
Proof.
  unfold shutdown_inv. simpl. repeat split; try done.
  intros [? | ?]; done.
Qed.

Ltac frame H :=
  let H1 := fresh in let H2 := fresh in let H3 := fresh in let H4 := fresh in
  apply consume_body_frame in H; destruct H as (H1 & H2 & H3 & H4);
  cbn; rewrite ?H1, ?H2, ?H3, ?H4.

Lemma alive_task_bounds t : 0 <= alive_task t <= 1.
Proof. destruct t; cbn; lia. Qed.

Lemma alive_ingest_bounds p : 0 <= alive_ingest p <= 1.
Proof. destruct p; cbn; lia. Qed.

Ltac finish s :=
  pose proof (alive_task_bounds (collector s));
  pose proof (alive_ingest_bounds (ingest s));
  intuition (try congruence; try lia).

Lemma step_inv s s' : shutdown_inv s -> step s s' -> shutdown_inv s'.
Proof.
  intros (Hwg & Hctx & Hwait & Hclosed) Hstep.
  assert (forall z, 1 <= z <= 2 -> int_add z (-1) = z - 1) as Hdone.
  { intros z Hz. unfold int_add. apply wrap64_id. unfold max_int64. lia. }
  destruct Hstep as
    [ s Hpc | s Hpc Hw | s m Hpc Hc
    | s Hpc | s err Hpc | s Hpc Hd | s Hpc Hd
    | s scan parked m Hpc Hp Hb | s scan parked m Hpc Hp Hb
    | s scan parked m err Hpc Hp Hb
    | s Hpc Hd | s Hpc
    | s i Hw | s i Hw Hd | s i now event rest Hw Hb | s i Hw Hc Hb
    | s Hj Hall ];
    unfold shutdown_inv; cbn in *.
  - rewrite Hpc in *. finish s.
  - rewrite Hpc in *. unfold Stop_wait_returns in Hw. apply Z.eqb_eq in Hw.
    finish s.
  - rewrite Hpc in *. unfold Stop_close in Hc.
    destruct (closed (EventChan (mon s))); [ discriminate |].
    injection Hc as <-. cbn. finish s.
  - rewrite Hpc in *. cbn in *. finish s.
  - rewrite Hpc in *. cbn in *. rewrite Hdone by (rewrite Hwg; destruct (collector s); cbn; lia).
    destruct (stop s); finish s.
  - rewrite Hpc in *. cbn in *. rewrite Hdone by (rewrite Hwg; destruct (collector s); cbn; lia).
    destruct (stop s); finish s.
  - rewrite Hpc in *. cbn in *. finish s.
  - frame Hb. rewrite Hpc in *. cbn in *. finish s.
  - frame Hb. rewrite Hpc in *. cbn in *.
    rewrite Hdone by (rewrite Hwg; destruct (collector s); cbn; lia).
    destruct (stop s); finish s.
  - frame Hb. rewrite Hpc in *. cbn in *.
    rewrite Hdone by (rewrite Hwg; destruct (collector s); cbn; lia).
    destruct (stop s); finish s.
  - rewrite Hpc in *. cbn in *.
    rewrite Hdone by (rewrite Hwg; destruct (ingest s); cbn; lia).
    destruct (stop s); finish s.
  - finish s.
  - finish s.
  - finish s.
  - finish s.
  - finish s.
  - finish s.
Qed.

Lemma reachable_inv cfg s : reachable (started cfg) s -> shutdown_inv s.
Proof.
  unfold reachable. revert s.
  apply (rtc_ind_r (fun s => shutdown_inv s) (started cfg)).
  - apply started_inv.
  - intros y z _ Hstep Hinv. exact (step_inv y z Hinv Hstep).
Qed.

(** No step of any goroutine raises [ErrorCount]: neither handling an
    event nor finding the queue closed is counted as an error. *)
Lemma step_ErrorCount s s' :
  step s s' ->
  ErrorCount (Metrics (Processor (mon s'))) = ErrorCount (Metrics (Processor (mon s))).
Proof.
  intros Hstep.
  destruct Hstep as
    [ s Hpc | s Hpc Hw | s m Hpc Hc
    | s Hpc | s err Hpc | s Hpc Hd | s Hpc Hd
    | s scan parked m Hpc Hp Hb | s scan parked m Hpc Hp Hb
    | s scan parked m err Hpc Hp Hb
    | s Hpc Hd | s Hpc
    | s i Hw | s i Hw Hd | s i now event rest Hw Hb | s i Hw Hc Hb
    | s Hj Hall ];
    cbn; try reflexivity.
  - unfold Stop_close in Hc. destruct (closed (EventChan (mon s))); [ discriminate |].
    by injection Hc as <-.
  - frame Hb. congruence.
  - frame Hb. congruence.
  - frame Hb. congruence.
  - rewrite worker_handle_metrics. by destruct (isKnownThreat event).
Qed.

(** C9 (amended). In every state a started monitor can reach: the
    context is cancelled exactly from [Stop]'s first statement on;
    [wg.Wait()] has returned only if the ingestion task and the metrics
    collector have both exited; the queue is closed exactly once [Stop]
    has executed its [close], hence only after cancellation and after
    those two goroutines are gone. [Stop] does not wait for the workers. A
    worker that finds the queue closed and empty leaves its loop with one
    printed line, and no step ever raises [ErrorCount]. *)
Theorem C9_shutdown_order cfg s :
  reachable (started cfg) s ->
  (ctx_done (mon s) = true <-> stop s <> BeforeCancel) /\
  (stop s = BeforeClose \/ stop s = Stopped ->
   ingest s = IngestExited /\ collector s = Exited) /\
  (closed (EventChan (mon s)) = true <-> stop s = Stopped) /\
  (closed (EventChan (mon s)) = true ->
   ctx_done (mon s) = true /\ ingest s = IngestExited /\ collector s = Exited) /\
  (forall s', step s s' ->
     ErrorCount (Metrics (Processor (mon s'))) =
     ErrorCount (Metrics (Processor (mon s)))) /\
  (forall i : nat,
     workers s !! i = Some WLoop ->
     closed (EventChan (mon s)) = true ->
     buf (EventChan (mon s)) = [] ->
     step s (with_workers (<[i := WExited]> (workers s))
               (with_mon (mprint (WorkerChannelClosed (Z.of_nat i)) (mon s)) s))).
Proof.
  intros Hreach.
  destruct (reachable_inv cfg s Hreach) as (Hwg & Hctx & Hwait & Hclosed).
  assert (stop s = BeforeClose \/ stop s = Stopped ->
          ingest s = IngestExited /\ collector s = Exited) as Hjoined.
  { intros Hpc. specialize (Hwait Hpc). rewrite Hwait in Hwg.
    destruct (ingest s), (collector s); cbn in Hwg; try lia; done. }
  split; [ exact Hctx |]. split; [ exact Hjoined |]. split; [ exact Hclosed |].
  split; [| split ].
  - intros Hc. apply Hclosed in Hc. split.
    + apply Hctx. congruence.
    + apply Hjoined. auto.
  - intros s'. apply step_ErrorCount.
  - intros i Hw Hc Hb. by apply step_worker_closed.
Qed.

End Shutdown.

Lemma closed_early_reachable :
  @Runtime.reachable Fixtures.runtime_lib (Runtime.started Fixtures.config)
    Fixtures.closed_early.
Proof.
  unfold Runtime.reachable. change (Runtime.started Fixtures.config) with Fixtures.trace0.
  apply rtc_l with Fixtures.trace1;
    [ apply (@Runtime.step_worker_start _ Fixtures.trace0 0%nat); reflexivity |].
  apply rtc_l with Fixtures.trace2;
    [ apply (@Runtime.step_ingest_dial_ok _ Fixtures.trace1); reflexivity |].
  apply rtc_l with Fixtures.trace3;
    [ apply (@Runtime.step_stop_cancel _ Fixtures.trace2); reflexivity |].
  apply rtc_l with Fixtures.trace4;
    [ apply (@Runtime.step_ingest_select_done _ Fixtures.trace3); reflexivity |].
  apply rtc_l with Fixtures.trace5;
    [ apply (@Runtime.step_collector_done _ Fixtures.trace4); reflexivity |].
  apply rtc_l with Fixtures.trace6;
    [ apply (@Runtime.step_stop_wait _ Fixtures.trace5); reflexivity |].
  apply rtc_once.
  apply (@Runtime.step_stop_close _ Fixtures.trace6); reflexivity.
Qed.

(** The state in which the queue was closed under a running worker. *)
Lemma C9_shutdown_order_witness :
  Runtime.closed (Runtime.EventChan (Runtime.mon Fixtures.closed_early)) = true /\
  Runtime.workers Fixtures.closed_early = [Runtime.WLoop] /\
  Runtime.ctx_done (Runtime.mon Fixtures.closed_early) = true /\
  Runtime.ingest Fixtures.closed_early = Runtime.IngestExited /\
  Runtime.collector Fixtures.closed_early = Runtime.Exited.
Proof.
  split; [ reflexivity |]. split; [ reflexivity |].
  apply (@C9_shutdown_order Fixtures.runtime_lib Fixtures.config Fixtures.closed_early
           closed_early_reachable).
  reflexivity.
Defined.

(** C9 as stated fails: [Stop] closes the queue without joining the
    workers, so a state is reachable in which the queue is closed while a
    worker is still in its receive loop. *)
Lemma C9_queue_closed_while_worker_runs :
  ~ (forall s,
       @Runtime.reachable Fixtures.runtime_lib (Runtime.started Fixtures.config) s ->
       Runtime.closed (Runtime.EventChan (Runtime.mon s)) = true ->
       Forall (fun w => w = Runtime.WExited) (Runtime.workers s)).
Proof.
  intros Hjoin.
  specialize (Hjoin Fixtures.closed_early closed_early_reachable eq_refl).
  apply Forall_cons_1 in Hjoin as [Hexited _]. discriminate Hexited.
Qed.

(** ** Substring search *)

Section Strings.

Lemma len_nonneg s : 0 <= len s.
Proof. unfold len. lia. Qed.

Lemma len_String c s : len (String c s) = len s + 1.
Proof. unfold len. cbn [String.length]. lia. Qed.

Lemma len_nil_iff s : len s = 0 <-> s = ""%string.
Proof.
  destruct s; [ done |]. rewrite len_String.
  pose proof (len_nonneg s). split; [ lia | discriminate ].
Qed.

Lemma append_nil_l s : ("" +:+ s)%string = s.
Proof. reflexivity. Qed.

Lemma append_String c s1 s2 : (String c s1 +:+ s2)%string = String c (s1 +:+ s2).
Proof. reflexivity. Qed.

Lemma len_append s1 s2 : len (s1 +:+ s2) = len s1 + len s2.
Proof.
  induction s1 as [| c s1 IH].
  - rewrite append_nil_l. change (len "") with 0. lia.
  - rewrite append_String, !len_String, IH. lia.
Qed.

Lemma append_nil_r s : (s +:+ "")%string = s.
Proof.
  induction s as [| c s IH]; [ done |]. by rewrite append_String, IH.
Qed.

(** [s[0:len(sub)] == sub] says that [sub] is a prefix of [s]. *)
Lemma slice_to_prefix sub : forall s,
  slice_to s (len sub) = sub <-> exists post, s = (sub +:+ post)%string.
Proof.
  unfold slice_to, len. rewrite Nat2Z.id.
  induction sub as [| c sub IH]; intros s.
  - split; [ intros _; by exists s |]. intros _. by destruct s.
  - destruct s as [| c' s]; cbn.
    + split; [ discriminate | intros [post Hpost]; discriminate ].
    + split.
      * intros [= -> Hsub]. apply IH in Hsub as [post ->]. by exists post.
      * intros [post [= -> ->]]. f_equal. apply IH. by exists post.
Qed.

Lemma slice_to_self s : slice_to s (len s) = s.
Proof. apply slice_to_prefix. exists ""%string. by rewrite append_nil_r. Qed.

Lemma contains_unfold s substr :
  contains s substr =
  (len substr <=? len s) &&
  (String.eqb s substr ||
   ((0 <? len s) && (0 <? len substr) &&
    (String.eqb (slice_to s (min (len s) (len substr)))
                (slice_to substr (min (len s) (len substr))) ||
     match s with
     | EmptyString => false
     | String _ s1 => contains s1 substr
     end))).
Proof. destruct s; reflexivity. Qed.

Lemma is_substring_len sub s : is_substring sub s -> len sub <= len s.
Proof.
  intros (pre & post & ->). rewrite !len_append.
  pose proof (len_nonneg pre). pose proof (len_nonneg post). lia.
Qed.

Lemma is_substring_cons sub c s :
  is_substring sub (String c s) <->
  (exists post, String c s = (sub +:+ post)%string) \/ is_substring sub s.
Proof.
  split.
  - intros ([| c' pre] & post & Heq).
    + left. by exists post.
    + right. cbn in Heq. injection Heq as -> ->. by exists pre, post.
  - intros [[post Hpost] | (pre & post & ->)].
    + by exists ""%string, post.
    + by exists (String c pre), post.
Qed.

Lemma contains_spec s substr :
  substr <> ""%string -> (contains s substr = true <-> is_substring substr s).
Proof.
  intros Hne. induction s as [| c s IH].
  - rewrite contains_unfold. change (len "") with 0.
    assert (0 < len substr) as Hpos.
    { pose proof (len_nonneg substr).
      destruct (decide (len substr = 0)) as [H0 | ?]; [| lia ].
      apply len_nil_iff in H0. done. }
    assert ((len substr <=? 0) = false) as -> by (apply Z.leb_gt; lia).
    split; [ discriminate |]. intros Hsub.
    apply is_substring_len in Hsub. change (len "") with 0 in Hsub. lia.
  - rewrite contains_unfold, is_substring_cons.
    assert (0 < len substr) as Hpos.
    { pose proof (len_nonneg substr).
      destruct (decide (len substr = 0)) as [H0 | ?]; [| lia ].
      apply len_nil_iff in H0. done. }
    assert ((0 <? len (String c s)) = true) as ->.
    { apply Z.ltb_lt. rewrite len_String. pose proof (len_nonneg s). lia. }
    assert ((0 <? len substr) = true) as -> by (by apply Z.ltb_lt).
    cbn [andb].
    destruct (Z.leb_spec (len substr) (len (String c s))) as [Hle | Hgt];
      cbn [andb].
    * assert (min (len (String c s)) (len substr) = len substr) as ->.
      { unfold min. destruct (Z.ltb_spec (len (String c s)) (len substr)); lia. }
      rewrite slice_to_self, !orb_true_iff, !String.eqb_eq, slice_to_prefix, IH.
      split.
      -- intros [-> | [Hpre | Hrec]]; [| tauto | tauto ].
         left. exists ""%string. by rewrite append_nil_r.
      -- intros [Hpre | Hrec]; tauto.
    * split; [ discriminate |].
      intros [[post Hpost] | Hsub].
      -- assert (len (String c s) = len substr + len post) as Hlen
           by (by rewrite Hpost, len_append).
         pose proof (len_nonneg post). lia.
      -- apply is_substring_len in Hsub. rewrite len_String in Hgt. lia.
Qed.

(** X1. The monitor's [contains] is substring search for every
    non-empty needle: it answers [true] exactly when the needle occurs
    somewhere in the haystack. For the empty needle it answers [true] only
    on the empty haystack. *)
Theorem contains_is_substring s substr :
  (substr <> ""%string -> (contains s substr = true <-> is_substring substr s)) /\
  (contains s "" = true <-> s = ""%string).
Proof.
  split; [ apply contains_spec |].
  rewrite contains_unfold. change (len "") with 0.
  rewrite Z.ltb_irrefl, andb_false_r, andb_false_l, orb_false_r.
  assert ((0 <=? len s) = true) as -> by (apply Z.leb_le, len_nonneg).
  cbn [andb]. apply String.eqb_eq.
Qed.

End Strings.

(** [contains] finds "/etc/shadow" inside a longer path. *)
Lemma contains_is_substring_witness :
  "/etc/shadow"%string <> ""%string /\
  is_substring "/etc/shadow" "/host/etc/shadow.bak".
Proof.
  split; [ discriminate |].
  apply (proj1 (contains_is_substring "/host/etc/shadow.bak" "/etc/shadow")).
  - discriminate.
  - reflexivity.
Defined.

(** ** More on the monitor's ingestion loop *)

Section Ingestion.
Context `{L : Runtime.Lib}.
Import Runtime.

Lemma sensitivePatterns_nonempty pattern :
  pattern ∈ sensitivePatterns -> pattern <> ""%string.
Proof.
  unfold sensitivePatterns. intros Hin Hempty. subst pattern.
  repeat (apply elem_of_cons in Hin as [Hin | Hin]; [ discriminate Hin |]).
  by apply elem_of_nil in Hin.
Qed.

(** X2. A path is flagged as sensitive exactly when one of the nine
    fixed patterns occurs somewhere in it, as a substring and not as a
    path component. *)
Theorem isSensitiveFile_spec path :
  isSensitiveFile path = true <->
  exists pattern, pattern ∈ sensitivePatterns /\ is_substring pattern path.
Proof.
  unfold isSensitiveFile. rewrite existsb_exists. split.
  - intros (pattern & Hin & Hc). apply list_elem_of_In in Hin.
    exists pattern. split; [ exact Hin |].
    by apply (contains_spec path pattern
                      (sensitivePatterns_nonempty pattern Hin)) in Hc.
  - intros (pattern & Hin & Hsub). exists pattern.
    split; [ by apply list_elem_of_In |].
    by apply (contains_spec path pattern
                      (sensitivePatterns_nonempty pattern Hin)).
Qed.

(** X3. An event passes the monitor's filter exactly when the namespace
    filter is unset or equals the event's namespace, and the deployment
    filter is unset or occurs in the event's pod name. With both filters
    unset every event passes. *)
Theorem shouldProcessEvent_spec m event :
  (shouldProcessEvent m event = true <->
   (MC_Namespace (Config m) = ""%string \/
    CI_Namespace (Container event) = MC_Namespace (Config m)) /\
   (Deployment (Config m) = ""%string \/
    is_substring (Deployment (Config m)) (CI_PodName (Container event)))) /\
  (MC_Namespace (Config m) = ""%string -> Deployment (Config m) = ""%string ->
   shouldProcessEvent m event = true).
Proof.
  assert (shouldProcessEvent m event = true <->
   (MC_Namespace (Config m) = ""%string \/
    CI_Namespace (Container event) = MC_Namespace (Config m)) /\
   (Deployment (Config m) = ""%string \/
    is_substring (Deployment (Config m)) (CI_PodName (Container event)))) as Hiff.
  { unfold shouldProcessEvent.
    destruct (String.eqb_spec (MC_Namespace (Config m)) "") as [Hns | Hns];
      destruct (String.eqb_spec (CI_Namespace (Container event))
                  (MC_Namespace (Config m))) as [Hens | Hens];
      cbn [negb andb]; try (split; [ discriminate | tauto ]).
    all: destruct (String.eqb_spec (Deployment (Config m)) "") as [Hd | Hd];
      cbn [negb andb]; [ tauto |].
    all: pose proof (contains_spec (CI_PodName (Container event))
                              (Deployment (Config m)) Hd) as Hc.
    all: destruct (String.eqb_spec (CI_PodName (Container event)) "") as [Hp | Hp];
      cbn [orb].
    all: try (split; [ discriminate |]; intros [_ [? | Hsub]]; [ done |];
              apply is_substring_len in Hsub; rewrite Hp in Hsub;
              change (len "") with 0 in Hsub;
              assert (len (Deployment (Config m)) = 0) as H0
                by (pose proof (len_nonneg (Deployment (Config m))); lia);
              by apply len_nil_iff in H0).
    all: destruct (contains (CI_PodName (Container event)) (Deployment (Config m)));
      cbn [negb]; split; try discriminate; try tauto.
    all: intros [_ [? | Hsub]]; [ done | by apply Hc in Hsub ]. }
  split; [ exact Hiff |].
  intros Hns Hd. apply Hiff. tauto.
Qed.

(** X4. Once the context is cancelled an iteration returns without
    reading anything. Before that, a line that does not decode costs one
    warning and an event the filter rejects costs nothing: in both cases
    the loop goes on, and the queue and the metrics are as before. *)
Theorem consume_iteration_skips data parked m :
  (ctx_done m = true ->
   forall scan, consume_iteration scan parked m = (Return None, m)) /\
  (ctx_done m = false ->
   (forall err, snd (parseEvent data) = Some err ->
      consume_iteration (ScanLine data) parked m =
        (Continue, mprint (ParseWarning err) m)) /\
   (snd (parseEvent data) = None ->
    shouldProcessEvent m (fst (parseEvent data)) = false ->
    consume_iteration (ScanLine data) parked m = (Continue, m)) /\
   (snd (parseEvent data) <> None \/
    shouldProcessEvent m (fst (parseEvent data)) = false ->
    let m' := snd (consume_iteration (ScanLine data) parked m) in
    fst (consume_iteration (ScanLine data) parked m) = Continue /\
    EventChan m' = EventChan m /\
    Metrics (Processor m') = Metrics (Processor m))).
Proof.
  split.
  - intros Hdone scan. unfold consume_iteration. by rewrite Hdone.
  - intros Hlive. unfold consume_iteration, consume_body. rewrite Hlive.
    destruct (parseEvent data) as [event [err |]]; cbn [fst snd].
    + split; [ by intros ? [= ->] |]. split; [ discriminate |]. done.
    + split; [ discriminate |]. split.
      * intros _ ->. reflexivity.
      * intros [? | ->]; done.
Qed.

Lemma drop_warnings_app out1 out2 :
  drop_warnings (out1 ++ out2) = (drop_warnings out1 + drop_warnings out2)%nat.
Proof. unfold drop_warnings. by rewrite List.filter_app, length_app. Qed.

Lemma enqueue_all_cons event events m :
  enqueue_all (event :: events) m = enqueue_all events (snd (enqueue false event m)).
Proof. reflexivity. Qed.

Lemma enqueue_open event m :
  closed (EventChan m) = false ->
  snd (enqueue false event m) =
  if Z.of_nat (length (buf (EventChan m))) <? cap (EventChan m)
  then set_EventChan {| buf := buf (EventChan m) ++ [event];
                        cap := cap (EventChan m); closed := false |} m
  else mprint ChannelFullWarning m.
Proof.
  intros Hopen. unfold enqueue, send_nowait. rewrite Hopen. cbn [orb].
  by destruct (Z.of_nat (length (buf (EventChan m))) <? cap (EventChan m)).
Qed.

(** X5. Offering a batch of events to an open queue, one non-blocking
    send after the other with no receiver in between, keeps what was
    queued, appends the new events in order until the capacity is reached,
    and drops every later one: the queue ends up as the first [cap]
    elements of old contents followed by the batch. One warning is
    printed per dropped event and the metrics do not move. *)
Theorem enqueue_all_drop_newest events : forall m,
  closed (EventChan m) = false ->
  Z.of_nat (length (buf (EventChan m))) <= cap (EventChan m) ->
  let m' := enqueue_all events m in
  buf (EventChan m') =
    take (Z.to_nat (cap (EventChan m))) (buf (EventChan m) ++ events) /\
  cap (EventChan m') = cap (EventChan m) /\
  closed (EventChan m') = false /\
  Metrics (Processor m') = Metrics (Processor m) /\
  drop_warnings (stdout (Processor m')) =
    (drop_warnings (stdout (Processor m)) +
     (length events - (Z.to_nat (cap (EventChan m)) - length (buf (EventChan m)))))%nat.
Proof.
  induction events as [| event events IH]; intros m Hopen Hlen; cbn zeta.
  - cbn [enqueue_all fold_left]. rewrite app_nil_r, take_ge by lia.
    repeat split; try done; cbn; lia.
  - rewrite enqueue_all_cons, (enqueue_open event m Hopen).
    destruct (Z.ltb_spec (Z.of_nat (length (buf (EventChan m)))) (cap (EventChan m)))
      as [Hroom | Hfull].
    + destruct (IH (set_EventChan
                      {| buf := buf (EventChan m) ++ [event];
                         cap := cap (EventChan m); closed := false |} m))
        as (Hbuf & Hcap & Hclosed & Hmetrics & Hwarn).
      { reflexivity. }
      { cbn. rewrite length_app. cbn. lia. }
      cbn [set_EventChan EventChan buf cap closed Processor] in *.
      rewrite Hbuf, Hcap, Hclosed, Hmetrics, Hwarn, <- app_assoc, length_app.
      cbn [app length]. repeat split; try done. lia.
    + destruct (IH (mprint ChannelFullWarning m))
        as (Hbuf & Hcap & Hclosed & Hmetrics & Hwarn).
      { exact Hopen. }
      { exact Hlen. }
      cbn [mprint set_Processor print EventChan Processor Metrics stdout] in *.
      rewrite Hbuf, Hcap, Hclosed, Hmetrics, Hwarn, drop_warnings_app.
      assert (length (buf (EventChan m)) = Z.to_nat (cap (EventChan m))) as Hexact
        by lia.
      rewrite <- Hexact, !take_app_length. cbn [length drop_warnings].
      repeat split; try done. cbn. lia.
Qed.

End Ingestion.

(** Three events offered to a queue with room for two more. *)
Lemma enqueue_all_drop_newest_witness :
  let m := Runtime.NewMonitor
             {| Runtime.FalcoSocket := ""; Runtime.BufferSize := 2;
                Runtime.MC_Workers := 1; Runtime.MC_Namespace := "";
                Runtime.Deployment := "" |} in
  Runtime.buf (Runtime.EventChan
                 (enqueue_all [Fixtures.critical_event; Fixtures.shadow_event;
                               Fixtures.benign_event] m)) =
  take 2 ([] ++ [Fixtures.critical_event; Fixtures.shadow_event; Fixtures.benign_event]).
Proof.
  intros m.
  apply (enqueue_all_drop_newest
           [Fixtures.critical_event; Fixtures.shadow_event; Fixtures.benign_event] m).
  - reflexivity.
  - cbn. lia.
Defined.

(** ** More on the feature extractor and the worker *)

Section Pipeline.
Context `{L : Runtime.Lib}.
Import Runtime.

Lemma Extract_other t event q :
  actor event <> Some q -> snd (Extract t event) !! q = t !! q.
Proof.
  intros Hother. destruct (actor event) as [proc |] eqn:Hactor.
  - destruct (Extract_actor t event proc Hactor) as (-> & _).
    unfold updateProcessFrequency. apply lookup_insert_ne. congruence.
  - by destruct (Extract_no_actor t event Hactor) as (-> & _).
Qed.

(** X6. [Extract] changes the frequency table at the event's own actor
    only: the entry of every other process name, present or not, is what
    it was. *)
Theorem Extract_touches_only_actor t event q :
  actor event <> Some q ->
  snd (Extract t event) !! q = t !! q /\
  getProcessFrequency q (snd (Extract t event)) = getProcessFrequency q t.
Proof.
  intros Hother. pose proof (Extract_other t event q Hother) as Heq.
  split; [ exact Heq |]. unfold getProcessFrequency. by rewrite Heq.
Qed.

Lemma count_actor_cons proc event events :
  count_actor proc (event :: events) =
  (if decide (actor event = Some proc) then 1 else 0) + count_actor proc events.
Proof.
  unfold count_actor. rewrite filter_cons.
  destruct (decide (actor event = Some proc)); cbn [length]; lia.
Qed.

Lemma count_actor_nonneg proc events : 0 <= count_actor proc events.
Proof. unfold count_actor. lia. Qed.

(** X7. The frequency table counts: after [Extract] has processed a
    sequence of events, the count of a process name is its count before
    plus the number of events of that actor in the sequence (as long as
    the sum fits an [int]). Counts never decay or reset. *)
Theorem extract_all_counts events : forall t proc,
  - 2 ^ 63 <= getProcessFrequency proc t ->
  getProcessFrequency proc t + count_actor proc events <= max_int64 ->
  getProcessFrequency proc (extract_all events t) =
  getProcessFrequency proc t + count_actor proc events.
Proof.
  induction events as [| event events IH]; intros t proc Hlow Hhigh.
  - unfold count_actor. cbn. lia.
  - change (extract_all (event :: events) t)
      with (extract_all events (snd (Extract t event))).
    rewrite count_actor_cons in *. pose proof (count_actor_nonneg proc events).
    destruct (decide (actor event = Some proc)) as [Hactor | Hother].
    + destruct (Extract_actor t event proc Hactor) as (Ht1 & _).
      assert (getProcessFrequency proc (snd (Extract t event)) =
              getProcessFrequency proc t + 1) as Hone.
      { rewrite Ht1, getProcessFrequency_update. unfold int_add.
        apply wrap64_id. lia. }
      rewrite IH; rewrite Hone; lia.
    + assert (getProcessFrequency proc (snd (Extract t event)) =
              getProcessFrequency proc t) as Hsame.
      { unfold getProcessFrequency. by rewrite Extract_other. }
      rewrite IH; rewrite Hsame; lia.
Qed.

(** X8. Inside the pipeline, where the features are the extracted ones,
    [processEvent] never returns an error, the heuristic score never
    exceeds the 0.75 threshold, and so an event is flagged as an anomaly
    exactly when the rule-based detection knows it; its score is then
    0.95, and the heuristic score otherwise. *)
Theorem processEvent_in_pipeline now event ep :
  let r := processEvent now event ep in
  let p := snd (fst r) in
  fst (fst r) = None /\
  (0.75 <? getAIRiskScore (Features p))%float = false /\
  Anomaly p = isKnownThreat event /\
  RiskScore p = (if isKnownThreat event then 0.95%float
                 else getAIRiskScore (Features p)).
Proof.
  cbv zeta. rewrite processEvent_effect. cbn [fst snd Features Anomaly RiskScore].
  pose proof (Extract_counts (processFrequency ep) event) as [Hf Hn].
  destruct (getAIRiskScore_small _ Hf Hn) as (H75 & _ & _).
  by rewrite H75.
Qed.

Lemma known_threats_cons now event events :
  known_threats ((now, event) :: events) =
  if isKnownThreat event then (now, event) :: known_threats events
  else known_threats events.
Proof. reflexivity. Qed.

(** X9. A worker's run prints one anomaly report per known threat, in
    the order of arrival, and nothing else; and [AnomaliesDetected] goes
    up by the number of known threats among the events (as long as the
    sum fits an [int64]). *)
Theorem worker_run_reports id events : forall ep,
  - 2 ^ 63 <= AnomaliesDetected (Metrics ep) ->
  AnomaliesDetected (Metrics ep) + Z.of_nat (length (known_threats events))
    <= max_int64 ->
  let ep' := worker_run id events ep in
  stdout ep' = stdout ep ++ map report_line (known_threats events) /\
  AnomaliesDetected (Metrics ep') =
    AnomaliesDetected (Metrics ep) + Z.of_nat (length (known_threats events)).
Proof.
  induction events as [| [now event] events IH]; intros ep Hlow Hhigh; cbv zeta.
  - cbn. rewrite app_nil_r. split; [ done | lia ].
  - change (worker_run id ((now, event) :: events) ep)
      with (worker_run id events (worker_handle id now event ep)).
    rewrite known_threats_cons in *.
    pose proof (worker_handle_effect id now event ep) as Heff.
    destruct (isKnownThreat event).
    + cbn [length] in Hhigh.
      assert (AnomaliesDetected (Metrics (worker_handle id now event ep)) =
              AnomaliesDetected (Metrics ep) + 1) as Hone.
      { rewrite Heff. cbn. unfold atomic_AddInt64. apply wrap64_id. lia. }
      destruct (IH (worker_handle id now event ep)) as [Hout Hcount];
        [ lia | lia |].
      rewrite Hout, Hcount, Hone. rewrite Heff at 1. cbn [stdout map length].
      rewrite <- app_assoc. split; [ done | lia ].
    + assert (AnomaliesDetected (Metrics (worker_handle id now event ep)) =
              AnomaliesDetected (Metrics ep)) as Hsame
        by (by rewrite Heff).
      destruct (IH (worker_handle id now event ep)) as [Hout Hcount];
        [ lia | lia |].
      rewrite Hout, Hcount, Hsame. rewrite Heff at 1. cbn [stdout].
      rewrite app_nil_r. done.
Qed.

End Pipeline.

(** The table after the three fixture events: [apt] was seen once. *)
Lemma Extract_touches_only_actor_witness :
  actor Fixtures.shadow_event <> Some "apt"%string /\
  Runtime.getProcessFrequency "apt"
    (snd (@Runtime.Extract Fixtures.runtime_lib {[ "apt"%string := 7 ]}
            Fixtures.shadow_event)) =
  Runtime.getProcessFrequency "apt" {[ "apt"%string := 7 ]}.
Proof.
  assert (actor Fixtures.shadow_event <> Some "apt"%string) as Hother
    by discriminate.
  split; [ exact Hother |].
  apply (@Extract_touches_only_actor Fixtures.runtime_lib {[ "apt"%string := 7 ]}
           Fixtures.shadow_event "apt"%string Hother).
Defined.

Lemma extract_all_counts_witness :
  Runtime.getProcessFrequency "apt"
    (@extract_all Fixtures.runtime_lib
       [Fixtures.benign_event; Fixtures.shadow_event; Fixtures.benign_event] ∅) =
  Runtime.getProcessFrequency "apt" ∅ +
  count_actor "apt" [Fixtures.benign_event; Fixtures.shadow_event; Fixtures.benign_event].
Proof.
  apply (@extract_all_counts Fixtures.runtime_lib
           [Fixtures.benign_event; Fixtures.shadow_event; Fixtures.benign_event]
           ∅ "apt"%string).
  - vm_compute. discriminate.
  - vm_compute. discriminate.
Defined.

Lemma worker_run_reports_witness :
  Runtime.stdout (@Runtime.worker_run Fixtures.runtime_lib 0 Fixtures.three_events
                    (Runtime.NewEventProcessor 1)) =
  Runtime.stdout (Runtime.NewEventProcessor 1) ++
  map report_line (known_threats Fixtures.three_events).
Proof.
  apply (@worker_run_reports Fixtures.runtime_lib 0 Fixtures.three_events
           (Runtime.NewEventProcessor 1)).
  - vm_compute. discriminate.
  - vm_compute. discriminate.
Defined.

(** ** More on the goroutines of a started monitor *)

Section Goroutines.
Context `{L : Runtime.Lib}.
Import Runtime.

(** What one pass through the ingestion loop's body can do to the queue:
    nothing, or append one event, and that only if a receiver is parked or
    the buffer has room. *)
Lemma consume_body_queue scan parked m fl m' :
  consume_body scan parked m = (fl, m') ->
  cap (EventChan m') = cap (EventChan m) /\
  (buf (EventChan m') = buf (EventChan m) \/
   exists event, buf (EventChan m') = buf (EventChan m) ++ [event] /\
     fl = Continue /\
     (parked = true \/
      Z.of_nat (length (buf (EventChan m))) < cap (EventChan m))) /\
  (fl = Panic -> closed (EventChan m) = true).
Proof.
  unfold consume_body, enqueue, send_nowait.
  destruct scan as [data | | err]; try (intros [= <- <-]; split; [ done | split; [ by left | done ] ]).
  destruct (parseEvent data) as [event [err |]];
    [ intros [= <- <-]; split; [ done | split; [ by left | done ] ] |].
  destruct (negb (shouldProcessEvent m event));
    [ intros [= <- <-]; split; [ done | split; [ by left | done ] ] |].
  destruct (closed (EventChan m)) eqn:Hc;
    [ intros [= <- <-]; split; [ done | split; [ by left | done ] ] |].
  destruct parked; cbn [orb].
  - intros [= <- <-]. split; [ done |]. split; [| done ].
    right. exists event. auto.
  - destruct (Z.ltb_spec (Z.of_nat (length (buf (EventChan m)))) (cap (EventChan m))).
    + intros [= <- <-]. split; [ done |]. split; [| done ].
      right. exists event. auto.
    + intros [= <- <-]. split; [ done | split; [ by left | done ] ].
Qed.

Ltac step_cases Hstep :=
  destruct Hstep as
    [ s Hpc | s Hpc Hw | s m Hpc Hc
    | s Hpc | s err Hpc | s Hpc Hd | s Hpc Hd
    | s scan parked m Hpc Hp Hb | s scan parked m Hpc Hp Hb
    | s scan parked m err Hpc Hp Hb
    | s Hpc Hd | s Hpc
    | s i Hw | s i Hw Hd | s i now event rest Hw Hb | s i Hw Hc Hb
    | s Hj Hall ].

Lemma Stop_close_frame m fl m' :
  Stop_close m = (fl, m') ->
  buf (EventChan m') = buf (EventChan m) /\ cap (EventChan m') = cap (EventChan m) /\
  Processor m' = Processor m.
Proof.
  unfold Stop_close. destruct (closed (EventChan m)); intros [= <- <-]; done.
Qed.

Lemma step_queue_inv cfg s s' : queue_inv cfg s -> step s s' -> queue_inv cfg s'.
Proof.
  intros [Hcap Hlen] Hstep. unfold queue_inv.
  step_cases Hstep; cbn; try done.
  - apply Stop_close_frame in Hc as (-> & -> & _). done.
  - apply consume_body_queue in Hb as (-> & [-> | (event & -> & _ & Hwhy)] & _);
      [ done |].
    split; [ done |]. rewrite length_app. cbn [length].
    destruct Hwhy as [-> | Hroom]; [| lia ].
    destruct (Hp eq_refl) as [-> _]. cbn. lia.
  - apply consume_body_queue in Hb as (-> & [-> | (event & _ & [=] & _)] & _).
    done.
  - apply consume_body_queue in Hb as (-> & [-> | (event & _ & [=] & _)] & _).
    done.
  - split; [ done |]. rewrite Hb in Hlen. cbn [length] in Hlen. lia.
Qed.


(** X10. A started monitor never panics on its queue or its wait group:
    in every state it can reach, the queue is still open whenever the
    ingestion task is alive, so its send never hits a closed channel;
    [Stop]'s [close] finds the queue open; and the wait group's counter
    stays between 0 and 2. *)
Theorem started_monitor_never_panics cfg s :
  reachable (started cfg) s ->
  (ingest s <> IngestExited -> closed (EventChan (mon s)) = false) /\
  (forall scan parked,
     ingest s = AtScan -> fst (consume_body scan parked (mon s)) <> Panic) /\
  (stop s = BeforeClose -> fst (Stop_close (mon s)) = Return None) /\
  0 <= wg (mon s) <= 2.
Proof.
  intros Hreach.
  destruct (reachable_inv cfg s Hreach) as (Hwg & Hctx & Hwait & Hclosed).
  assert (ingest s <> IngestExited -> closed (EventChan (mon s)) = false) as Hopen.
  { intros Halive.
    destruct (closed (EventChan (mon s))) eqn:Hc; [| done ].
    pose proof (proj1 Hclosed eq_refl) as Hstopped.
    specialize (Hwait (or_intror Hstopped)).
    rewrite Hwait in Hwg. pose proof (alive_task_bounds (collector s)).
    destruct (ingest s); cbn in Hwg; try lia; done. }
  split; [ exact Hopen |]. split; [| split ].
  - intros scan parked Hpc Hpanic.
    destruct (consume_body scan parked (mon s)) as [fl m'] eqn:Hb.
    cbn in Hpanic. subst fl.
    apply consume_body_queue in Hb as (_ & _ & Hwhy).
    rewrite Hopen in Hwhy by congruence. by specialize (Hwhy eq_refl).
  - intros Hpc. unfold Stop_close.
    destruct (closed (EventChan (mon s))) eqn:Hc; [| done ].
    pose proof (proj1 Hclosed eq_refl) as Hstopped. congruence.
  - rewrite Hwg. pose proof (alive_task_bounds (collector s)).
    pose proof (alive_ingest_bounds (ingest s)). lia.
Qed.

(** X11. Bounded memory: in every state a started monitor can reach the
    queue holds at most [BufferSize] events (at most one when the
    configured size is below 1 and an event was handed to a parked
    receiver), and its capacity is the configured one. *)
Theorem queue_stays_bounded cfg s :
  reachable (started cfg) s ->
  cap (EventChan (mon s)) = BufferSize cfg /\
  Z.of_nat (length (buf (EventChan (mon s)))) <= Z.max (BufferSize cfg) 1.
Proof.
  unfold reachable. revert s.
  apply (rtc_ind_r (fun s => queue_inv cfg s) (started cfg)).
  - split; [ done |]. cbn. lia.
  - intros y z _ Hstep Hinv. exact (step_queue_inv cfg y z Hinv Hstep).
Qed.


End Goroutines.

(** The state in which the queue was closed under a running worker. *)
Lemma started_monitor_never_panics_witness :
  0 <= Runtime.wg (Runtime.mon Fixtures.closed_early) <= 2.
Proof.
  apply (@started_monitor_never_panics Fixtures.runtime_lib Fixtures.config
           Fixtures.closed_early closed_early_reachable).
Defined.

Lemma queue_stays_bounded_witness :
  Runtime.cap (Runtime.EventChan (Runtime.mon Fixtures.closed_early)) =
    Runtime.BufferSize Fixtures.config /\
  Z.of_nat (length (Runtime.buf (Runtime.EventChan (Runtime.mon Fixtures.closed_early))))
    <= Z.max (Runtime.BufferSize Fixtures.config) 1.
Proof.
  apply (@queue_stays_bounded Fixtures.runtime_lib Fixtures.config
           Fixtures.closed_early closed_early_reachable).
Defined.


(** ** More on the forensic vault *)

Section VaultStore.
Context `{L : Forensics.Lib}.
Import Forensics.

Lemma StoreRecord_unfold (v : Vault) now_id now_ts record (w : World) :
  StoreRecord v now_id now_ts record w =
  let r := with_defaults now_id now_ts record in
  if negb (ShouldRetain (Policy v) r)
  then (Some "record does not meet retention criteria"%string, w)
  else
    match json_MarshalIndent r with
    | (_, Some err) => (Some ("failed to marshal record: " +:+ err)%string, w)
    | (data, None) =>
        match ioutil_WriteFile (disk w) (record_path v r) data with
        | (d, Some err) =>
            (Some ("failed to write record: " +:+ err)%string,
             {| disk := d; stdout := stdout w |})
        | (d, None) =>
            (None,
             {| disk := d;
                stdout := stdout w ++
                  [StoredRecord (ID r) (Severity r) (RiskScore r)] |})
        end
    end.
Proof. reflexivity. Qed.

(** X13. [StoreRecord] succeeds exactly when the policy keeps the
    record, the record marshals and the write succeeds. It then has
    written the marshalled record, once, under
    [<StoragePath>/<timestamp>_<id>.json] and printed one line; the
    identifier is the decimal [UnixNano] clock reading when none was
    given. A rejection or a marshal failure leaves the world untouched,
    and no failure prints anything. *)
Theorem StoreRecord_outcomes (v : Vault) now_id now_ts record (w : World) :
  let r := with_defaults now_id now_ts record in
  let res := StoreRecord v now_id now_ts record w in
  let write :=
    ioutil_WriteFile (disk w) (record_path v r) (fst (json_MarshalIndent r)) in
  ID r = (if String.eqb (ID record) "" then pretty (Time_UnixNano now_id)
          else ID record) /\
  (fst res = None <->
   ShouldRetain (Policy v) record = true /\
   snd (json_MarshalIndent r) = None /\ snd write = None) /\
  (fst res = None ->
   snd res = {| disk := fst write;
                stdout := stdout w ++
                  [StoredRecord (ID r) (Severity r) (RiskScore r)] |}) /\
  (ShouldRetain (Policy v) record = false \/ snd (json_MarshalIndent r) <> None ->
   snd res = w) /\
  (fst res <> None -> stdout (snd res) = stdout w).
Proof.
  intros r res write. subst res write. rewrite StoreRecord_unfold. cbv zeta.
  fold r. split.
  { unfold r, with_defaults.
    destruct (String.eqb (ID record) ""); by destruct (Time_IsZero _). }
  assert (ShouldRetain (Policy v) r = ShouldRetain (Policy v) record) as ->
    by apply ShouldRetain_defaults.
  destruct (ShouldRetain (Policy v) record); cbn [negb].
  - destruct (json_MarshalIndent r) as [data [err |]]; cbn [fst snd].
    + repeat split; try done. intros (_ & ? & _). done.
    + destruct (ioutil_WriteFile (disk w) (record_path v r) data) as [d [err |]];
        cbn [fst snd].
      * repeat split; try done.
        -- intros (_ & _ & ?). done.
        -- intros [? | ?]; done.
      * repeat split; try done. intros [? | ?]; done.
  - repeat split; try done. intros (? & _). done.
Qed.

(** X14. Narrowing a range query is the same as filtering the wider
    result: for [from <= from'] and [to' <= to], the records listed over
    [(from', to')] are those of [(from, to)] that lie in the narrower
    interval, in the same order. An empty or inverted interval lists
    nothing. *)
Theorem ListRecords_narrow (v : Vault) from to from' to' (w : World) :
  (from <= from' -> to' <= to ->
   fst (ListRecords v from' to' w) =
   filter (fun r => from' < Timestamp r /\ Timestamp r < to')
          (fst (ListRecords v from to w))) /\
  (to <= from + 1 -> fst (ListRecords v from to w) = []).
Proof.
  unfold ListRecords.
  destruct (filepath_Glob (disk w) _) as [files [err |]]; cbn [fst];
    [ done |].
  rewrite !ListRecords_loop_spec. cbn [app]. split.
  - intros Hfrom Hto. rewrite list_filter_filter.
    apply list_filter_iff. intros r. lia.
  - intros Hempty. induction (stored_records (disk w) files) as [| r l IH];
      [ done |].
    rewrite filter_cons.
    destruct (decide (from < Timestamp r /\ Timestamp r < to)); [ lia | exact IH ].
Qed.

End VaultStore.

Section VaultCleanup.
Context `{O : Forensics.OS}.
Import Forensics.



(** X16. When no listed file is both readable by [os.Stat] and modified
    before the cutoff (the clock reading minus [RetentionDays] days),
    [CleanupOldRecords] removes nothing and prints nothing: the file
    system is returned as it was. A file whose modification time equals
    the cutoff is not expired. *)
Theorem CleanupOldRecords_nothing_expired (v : Vault) now (d : FS) files :
  filepath_Glob d (filepath_Join (StoragePath (Config v)) "*.json") = (files, None) ->
  (forall file, file ∈ files ->
     snd (os_Stat d file) <> None \/ cleanup_cutoff v now <= fst (os_Stat d file)) ->
  CleanupOldRecords v now d = (None, d, []).
Proof.
  intros Hglob Hfresh. unfold CleanupOldRecords. rewrite Hglob.
  fold (cleanup_cutoff v now).
  assert (CleanupOldRecords_loop (cleanup_cutoff v now) files d 0 [] = (d, 0, []))
    as ->; [| reflexivity ].
  clear Hglob. induction files as [| file files IH]; [ reflexivity |].
  cbn [CleanupOldRecords_loop].
  destruct (Hfresh file ltac:(left)) as [Hstat | Hnew].
  - destruct (os_Stat d file) as [modTime [err |]]; [| done ].
    apply IH. intros f Hf. apply Hfresh. by right.
  - destruct (os_Stat d file) as [modTime [err |]].
    + apply IH. intros f Hf. apply Hfresh. by right.
    + cbn [fst] in Hnew. unfold Time_Before.
      assert ((modTime <? cleanup_cutoff v now) = false) as ->
        by (apply Z.ltb_ge; lia).
      apply IH. intros f Hf. apply Hfresh. by right.
Qed.

End VaultCleanup.

(** A store whose four files were all modified after the cutoff. *)
Lemma CleanupOldRecords_nothing_expired_witness :
  @Forensics.CleanupOldRecords Fixtures.vault_lib Fixtures.vault_os Fixtures.vault
    (90 * 86400000000000) (Forensics.disk Fixtures.four_files) =
  (None, Forensics.disk Fixtures.four_files, []).
Proof.
  apply (@CleanupOldRecords_nothing_expired Fixtures.vault_lib Fixtures.vault_os
           Fixtures.vault (90 * 86400000000000) (Forensics.disk Fixtures.four_files)
           ["/var/lib/forensics/1_a.json"; "/var/lib/forensics/2_x.json";
            "/var/lib/forensics/3_b.json"; "/var/lib/forensics/4_c.json"]%string).
  - reflexivity.
  - intros file Hin. right.
    repeat (apply elem_of_cons in Hin as [-> | Hin];
            [ vm_compute; discriminate |]).
    by apply elem_of_nil in Hin.
Defined.

Example CleanupOldRecords_removes_expired :
  @Forensics.CleanupOldRecords Fixtures.vault_lib Fixtures.vault_os Fixtures.vault
    (91 * 86400000000000) [("/var/lib/forensics/1_a.json", "a")]%string =
  (None, [], [Forensics.CleanedUp 1]).
Proof. vm_compute. reflexivity. Qed.

(** ** The static scanner's built-in checks *)

Section StaticChecks.
Import Static.

Lemma static_contains_unfold s substr :
  Static.contains s substr =
  (len substr <=? len s) && negb (String.eqb s substr) &&
  ((len s =? 0) || (len substr =? 0) ||
   String.eqb (slice_to s (len substr)) substr ||
   match s with
   | EmptyString => false
   | String _ s1 => Static.contains s1 substr
   end).
Proof. destruct s; reflexivity. Qed.

(** X17. The rules engine's [contains] answers [true] exactly when the
    needle occurs in the haystack followed by at least one more
    character. An occurrence at the very end does not count; in
    particular no string contains itself. *)
Theorem static_contains_needs_a_tail s substr :
  (Static.contains s substr = true <->
   exists pre post, s = (pre +:+ substr +:+ post)%string /\ post <> ""%string) /\
  Static.contains s s = false.
Proof.
  split.
  - induction s as [| c s IH]; rewrite static_contains_unfold.
    + change (len "") with 0. split.
      * destruct (Z.leb_spec (len substr) 0) as [Hle | Hgt]; [| discriminate ].
        assert (substr = ""%string) as ->
          by (apply len_nil_iff; pose proof (len_nonneg substr); lia).
        discriminate.
      * intros (pre & post & Heq & Hpost).
        assert (len "" = len pre + (len substr + len post)) as Hlen
          by (by rewrite Heq at 1; rewrite !len_append).
        change (len "") with 0 in Hlen.
        pose proof (len_nonneg pre). pose proof (len_nonneg substr).
        pose proof (len_nonneg post).
        assert (len post = 0) as Hzero by lia. by apply len_nil_iff in Hzero.
    + assert ((len (String c s) =? 0) = false) as ->.
      { apply Z.eqb_neq. rewrite len_String. pose proof (len_nonneg s). lia. }
      cbn [orb]. split.
      * rewrite !andb_true_iff, !orb_true_iff, negb_true_iff, String.eqb_neq,
          String.eqb_eq, Z.eqb_eq, Z.leb_le.
        intros [[Hle Hne] [[Hzero | Hpre] | Hrec]].
        -- apply len_nil_iff in Hzero as ->. exists ""%string, (String c s).
           split; [ done | discriminate ].
        -- apply slice_to_prefix in Hpre as [post Hpost].
           exists ""%string, post. split; [ done |].
           intros ->. rewrite append_nil_r in Hpost. done.
        -- apply IH in Hrec as (pre & post & -> & Hpost).
           exists (String c pre), post. done.
      * intros (pre & post & Heq & Hpost).
        assert (len (String c s) = len pre + (len substr + len post)) as Hlen
          by (by rewrite Heq at 1; rewrite !len_append).
        pose proof (len_nonneg pre). pose proof (len_nonneg substr).
        assert (0 < len post) as Hpos.
        { pose proof (len_nonneg post).
          destruct (decide (len post = 0)) as [Hzero | ?]; [| lia ].
          by apply len_nil_iff in Hzero. }
        rewrite !andb_true_iff, !orb_true_iff, negb_true_iff, String.eqb_neq,
          String.eqb_eq, Z.eqb_eq, Z.leb_le.
        split; [ split; [ lia |] |].
        -- intros Hsame. rewrite Hsame in Hlen. lia.
        -- destruct pre as [| c' pre].
           ++ left. right. apply slice_to_prefix. by exists post.
           ++ right. rewrite append_String in Heq. injection Heq as -> ->.
              apply IH. by exists pre, post.
  - rewrite static_contains_unfold, String.eqb_refl.
    by rewrite andb_false_r.
Qed.

Lemma builtin_violations_no_containers resource :
  not_a_workload resource = true \/ getContainers resource = [] ->
  checkPrivilegedContainers resource = None /\
  checkResourceLimits resource = None /\
  checkNonRootUser resource = None /\
  checkReadOnlyRootFS resource = None /\
  checkSecurityContext resource = None.
Proof.
  unfold checkPrivilegedContainers, checkResourceLimits, checkNonRootUser,
    checkReadOnlyRootFS, checkSecurityContext.
  intros [-> | Hnone]; [ done |].
  rewrite Hnone. by destruct (not_a_workload resource).
Qed.

(** X18. The five built-in checks look at Pods and Deployments only and
    only at what [getContainers] finds: a resource of any other kind
    (StatefulSet, DaemonSet, CronJob, ...) and a Pod or Deployment in
    which no container map is found pass all five checks. *)
Theorem builtin_checks_pass_without_containers resource :
  (Kind resource <> "Pod"%string /\ Kind resource <> "Deployment"%string) \/
  getContainers resource = [] ->
  builtin_violations resource = [].
Proof.
  intros Hwhy.
  destruct (builtin_violations_no_containers resource) as (H1 & H2 & H3 & H4 & H5).
  { destruct Hwhy as [[Hpod Hdep] | Hnone]; [ left | by right ].
    unfold not_a_workload.
    apply String.eqb_neq in Hpod as ->. by apply String.eqb_neq in Hdep as ->. }
  unfold builtin_violations. by rewrite H1, H2, H3, H4, H5.
Qed.

Lemma checkPrivilegedContainers_loop_spec resource containers :
  is_Some (checkPrivilegedContainers_loop resource containers) <->
  exists container, container ∈ containers /\ is_privileged container.
Proof.
  induction containers as [| c containers IH]; cbn [checkPrivilegedContainers_loop].
  - split; [ by intros [? ?] | intros (? & Hin & _); by apply elem_of_nil in Hin ].
  - unfold is_privileged in *.
    destruct (c !! "securityContext"%string) as [[| | | | | | sc |] |] eqn:Hsc;
      cbn [as_map].
    all: try (rewrite IH; split;
              [ intros (x & Hin & Hp); exists x; split; [ by right | done ]
              | intros (x & Hin & sc' & Hsc' & Hp);
                apply elem_of_cons in Hin as [-> | Hin];
                [ congruence | exists x; split; [ done | by exists sc' ] ] ]).
    destruct (sc !! "privileged"%string) as [[| [|] | | | | | |] |] eqn:Hpriv;
      cbn [as_bool].
    all: try (rewrite IH; split;
              [ intros (x & Hin & Hp); exists x; split; [ by right | done ]
              | intros (x & Hin & sc' & Hsc' & Hp);
                apply elem_of_cons in Hin as [-> | Hin];
                [ congruence | exists x; split; [ done | by exists sc' ] ] ]).
    split; [ intros _ | by eexists ].
    exists c. split; [ by left | by exists sc ].
Qed.

(** X19. [checkPrivilegedContainers] reports SEC-001 exactly for a Pod
    or Deployment in which some container found by [getContainers] has a
    [securityContext] map whose [privileged] entry is the boolean
    [true]. *)
Theorem checkPrivilegedContainers_spec resource :
  is_Some (checkPrivilegedContainers resource) <->
  (Kind resource = "Pod"%string \/ Kind resource = "Deployment"%string) /\
  exists container, container ∈ getContainers resource /\ is_privileged container.
Proof.
  unfold checkPrivilegedContainers, not_a_workload.
  destruct (String.eqb_spec (Kind resource) "Pod") as [Hpod | Hpod];
    destruct (String.eqb_spec (Kind resource) "Deployment") as [Hdep | Hdep];
    cbn [negb andb]; rewrite ?checkPrivilegedContainers_loop_spec;
    try tauto.
  split; [ by intros [? ?] | tauto ].
Qed.

Lemma checkResourceLimits_loop_spec resource containers :
  checkResourceLimits_loop resource containers = None <->
  forall container, container ∈ containers -> has_limits container.
Proof.
  induction containers as [| c containers IH]; cbn [checkResourceLimits_loop].
  - split; [ intros _ ? Hin; by apply elem_of_nil in Hin | done ].
  - unfold has_limits in *.
    destruct (c !! "resources"%string) as [[| | | | | | res |] |] eqn:Hres;
      cbn [as_map].
    all: try (split; [ discriminate |]; intros Hall;
              destruct (Hall c ltac:(left)) as (? & ? & ? & _); congruence).
    destruct (res !! "limits"%string) as [[| | | | | | limits |] |] eqn:Hlim;
      cbn [as_map].
    all: try (split; [ discriminate |]; intros Hall;
              destruct (Hall c ltac:(left)) as (? & ? & ? & ? & _); congruence).
    destruct (is_nil (limits !! "cpu"%string)) eqn:Hcpu;
      [| destruct (is_nil (limits !! "memory"%string)) eqn:Hmem ]; cbn [orb].
    + split; [ discriminate |]. intros Hall.
      destruct (Hall c ltac:(left)) as (? & ? & ? & ? & ? & _). congruence.
    + split; [ discriminate |]. intros Hall.
      destruct (Hall c ltac:(left)) as (? & ? & ? & ? & _ & ?). congruence.
    + rewrite IH. split.
      * intros Hall x Hin. apply elem_of_cons in Hin as [-> | Hin]; [| by apply Hall ].
        by exists res, limits.
      * intros Hall x Hin. apply Hall. by right.
Qed.

(** X20. [checkResourceLimits] is silent exactly when the resource is
    not a Pod or Deployment, or every container found declares
    [resources.limits] as a map with non-null [cpu] and [memory]; one
    container without them is enough for SEC-002. *)
Theorem checkResourceLimits_spec resource :
  checkResourceLimits resource = None <->
  (Kind resource <> "Pod"%string /\ Kind resource <> "Deployment"%string) \/
  forall container, container ∈ getContainers resource -> has_limits container.
Proof.
  unfold checkResourceLimits, not_a_workload.
  destruct (String.eqb_spec (Kind resource) "Pod") as [Hpod | Hpod];
    destruct (String.eqb_spec (Kind resource) "Deployment") as [Hdep | Hdep];
    cbn [negb andb]; rewrite ?checkResourceLimits_loop_spec; tauto.
Qed.

Lemma checkSecurityContext_loop_implies resource containers :
  is_Some (checkSecurityContext_loop resource containers) ->
  is_Some (checkNonRootUser_loop resource containers).
Proof.
  induction containers as [| c containers IH];
    cbn [checkSecurityContext_loop checkNonRootUser_loop]; [ done |].
  destruct (c !! "securityContext"%string) as [[| | | | | | sc |] |];
    cbn [as_map]; try (intros _; by eexists).
  destruct (as_bool (sc !! "runAsNonRoot"%string)) as [[|] |];
    [ exact IH | intros _; by eexists | intros _; by eexists ].
Qed.

(** X21. Whenever [checkSecurityContext] reports a container without a
    security context (SEC-005), [checkNonRootUser] reports too
    (SEC-003): a missing security context is always counted twice. *)
Theorem missing_security_context_reported_twice resource :
  is_Some (checkSecurityContext resource) -> is_Some (checkNonRootUser resource).
Proof.
  unfold checkSecurityContext, checkNonRootUser.
  destruct (not_a_workload resource); [ done |].
  apply checkSecurityContext_loop_implies.
Qed.

Lemma getContainers_with_spec_key key v resource :
  key <> "containers"%string -> key <> "template"%string ->
  getContainers (with_spec_key key v resource) = getContainers resource.
Proof.
  intros Hc Ht. unfold getContainers, with_spec_key. cbn [Kind Spec].
  by rewrite !lookup_insert_ne.
Qed.

(** The violation a loop reports names the resource by kind and name
    only, so the loops do not depend on the spec they are handed. *)
Lemma loops_with_spec_key key v resource containers :
  checkPrivilegedContainers_loop (with_spec_key key v resource) containers =
    checkPrivilegedContainers_loop resource containers /\
  checkResourceLimits_loop (with_spec_key key v resource) containers =
    checkResourceLimits_loop resource containers /\
  checkNonRootUser_loop (with_spec_key key v resource) containers =
    checkNonRootUser_loop resource containers /\
  checkReadOnlyRootFS_loop (with_spec_key key v resource) containers =
    checkReadOnlyRootFS_loop resource containers /\
  checkSecurityContext_loop (with_spec_key key v resource) containers =
    checkSecurityContext_loop resource containers.
Proof.
  induction containers as [| c containers (IH1 & IH2 & IH3 & IH4 & IH5)];
    [ done |].
  cbn [checkPrivilegedContainers_loop checkResourceLimits_loop
       checkNonRootUser_loop checkReadOnlyRootFS_loop checkSecurityContext_loop].
  rewrite IH1, IH2, IH3, IH4, IH5. done.
Qed.

(** X22. The built-in checks read nothing of a resource's spec but
    [containers] (Pod) and [template] (Deployment): setting any other
    key, such as [initContainers], [hostNetwork] or [volumes], to any
    value changes none of the five verdicts. A privileged init container
    is never reported. *)
Theorem builtin_checks_ignore_other_spec_keys key v resource :
  key <> "containers"%string -> key <> "template"%string ->
  builtin_violations (with_spec_key key v resource) = builtin_violations resource.
Proof.
  intros Hc Ht.
  unfold builtin_violations, checkPrivilegedContainers, checkResourceLimits,
    checkNonRootUser, checkReadOnlyRootFS, checkSecurityContext.
  rewrite !(getContainers_with_spec_key key v resource Hc Ht).
  destruct (loops_with_spec_key key v resource (getContainers resource))
    as (-> & -> & -> & -> & ->).
  reflexivity.
Qed.

End StaticChecks.

Example builtin_violations_privileged_pod :
  map Static.RuleID (Static.builtin_violations (Fixtures.pod [Fixtures.privileged_container])) =
  ["SEC-001"; "SEC-002"; "SEC-003"; "SEC-004"]%string.
Proof. vm_compute. reflexivity. Qed.

Example static_contains_examples :
  Static.contains "nginx:latest" "nginx" = true /\
  Static.contains "nginx:latest" "latest" = false /\
  Static.contains "latest" "latest" = false.
Proof. repeat split; reflexivity. Qed.

(** A CronJob with a privileged container passes the built-in checks. *)
Lemma builtin_checks_pass_without_containers_witness :
  Static.builtin_violations Fixtures.cronjob = [].
Proof.
  apply (builtin_checks_pass_without_containers Fixtures.cronjob).
  left. split; discriminate.
Defined.

(** A pod whose only container has no security context. *)
Lemma missing_security_context_reported_twice_witness :
  is_Some (Static.checkNonRootUser (Fixtures.pod [Fixtures.bare_container])).
Proof.
  apply (missing_security_context_reported_twice
           (Fixtures.pod [Fixtures.bare_container])).
  eexists. vm_compute. reflexivity.
Defined.

(** A privileged init container added to a pod with limits. *)
Lemma builtin_checks_ignore_other_spec_keys_witness :
  Static.builtin_violations
    (with_spec_key "initContainers" (Static.YSeq [Fixtures.privileged_container])
       (Fixtures.pod [Fixtures.limited_container])) =
  Static.builtin_violations (Fixtures.pod [Fixtures.limited_container]).
Proof.
  apply (builtin_checks_ignore_other_spec_keys "initContainers"
           (Static.YSeq [Fixtures.privileged_container])
           (Fixtures.pod [Fixtures.limited_container])); discriminate.
Defined.

(** With no filter configured the benign event passes. *)
Lemma shouldProcessEvent_spec_witness :
  Runtime.shouldProcessEvent (Runtime.NewMonitor Fixtures.config) Fixtures.benign_event
    = true.
Proof.
  apply (proj2 (shouldProcessEvent_spec (Runtime.NewMonitor Fixtures.config)
                  Fixtures.benign_event)); reflexivity.
Defined.

(** A line that does not decode, read by a monitor that is not cancelled. *)
Lemma consume_iteration_skips_witness :
  @Runtime.consume_iteration Fixtures.runtime_lib (Runtime.ScanLine "{") false
     (Runtime.NewMonitor Fixtures.config) =
  (Runtime.Continue,
   Runtime.mprint (Runtime.ParseWarning "invalid character")
     (Runtime.NewMonitor Fixtures.config)).
Proof.
  apply (proj1 (proj2 (@consume_iteration_skips Fixtures.runtime_lib "{" false
                         (Runtime.NewMonitor Fixtures.config)) eq_refl)).
  reflexivity.
Defined.

(** The "critical" record stored into an empty directory. *)
Lemma StoreRecord_outcomes_witness :
  fst (@Forensics.StoreRecord Fixtures.vault_lib Fixtures.vault 5 6
         Fixtures.critical_record (@Forensics.Build_World Fixtures.vault_lib [] []))
    = None.
Proof.
  apply (proj1 (proj2 (@StoreRecord_outcomes Fixtures.vault_lib Fixtures.vault 5 6
                         Fixtures.critical_record
                         (@Forensics.Build_World Fixtures.vault_lib [] [])))).
  repeat split; reflexivity.
Defined.

(** The query over (100, 200) narrowed to (120, 180). *)
Lemma ListRecords_narrow_witness :
  fst (@Forensics.ListRecords Fixtures.vault_lib Fixtures.vault 120 180
         Fixtures.four_files) =
  filter (fun r => 120 < Forensics.Timestamp r /\ Forensics.Timestamp r < 180)
         (fst (@Forensics.ListRecords Fixtures.vault_lib Fixtures.vault 100 200
                 Fixtures.four_files)).
Proof.
  apply (proj1 (@ListRecords_narrow Fixtures.vault_lib Fixtures.vault 100 200 120 180
                  Fixtures.four_files)); lia.
Defined.


(** ** More on the heuristic score *)

(** X23. Whatever the features, the heuristic score lies between 0 and
    1.1: it is not confined to the nominal range [0, 1], but it cannot
    grow beyond the sum of the four weights either, and it is never
    NaN. *)
Theorem getAIRiskScore_range f :
  (0 <=? Runtime.getAIRiskScore f)%float = true /\
  (Runtime.getAIRiskScore f <=? 1.1)%float = true.
Proof.
  unfold Runtime.getAIRiskScore.
  destruct (0 <? Z.of_nat (length (Runtime.SensitiveFiles f)));
    destruct (10 <? Runtime.NetworkConnCount f);
    destruct (50 <? Runtime.FileAccessCount f);
    destruct (existsb _ Runtime.suspiciousProcesses);
    vm_compute; split; reflexivity.
Qed.
